(** * games-island-monitor: a shallow embedding of [monitor.py]

    The monitor fetches one category page, extracts the product links,
    compares them with the set of URLs kept in a JSON state file, sends a
    mail for the new ones and saves the state again.

    Conventions of the embedding.
    - A Python [str] is a [string]; each [ascii] stands for one code point
      below 256, so that [String.length] is Python's [len].  Code points
      from 256 on are outside the model.
    - A Python [set] is a [gset]; a list is a [list].
    - A call that can raise returns a [result]; the orchestrator runs in a
      small state-and-exception monad over the state file and the trace of
      effects. *)

From Stdlib Require Import Ascii String.
From stdpp Require Import gmap strings sorting list pretty.

(** ** Python string operations *)

Module Py.

(** [s.startswith(p)] *)
Definition startswith (s p : string) : bool := String.prefix p s.

(** [sub in s] *)
Fixpoint str_in (sub s : string) : bool :=
  String.prefix sub s ||
  match s with
  | EmptyString => false
  | String _ t => str_in sub t
  end.

(** [c in s] for a one-character needle, as a proposition on the characters. *)
Fixpoint chars (s : string) : list ascii :=
  match s with
  | EmptyString => []
  | String c t => c :: chars t
  end.

(** Leading characters satisfying [p] removed: [s.lstrip(...)]. *)
Fixpoint lstrip_by (p : ascii -> bool) (s : string) : string :=
  match s with
  | EmptyString => EmptyString
  | String c t => if p c then lstrip_by p t else s
  end.

(** Trailing characters satisfying [p] removed: [s.rstrip(...)]. *)
Fixpoint rstrip_by (p : ascii -> bool) (s : string) : string :=
  match s with
  | EmptyString => EmptyString
  | String c t =>
      match rstrip_by p t with
      | EmptyString => if p c then EmptyString else String c EmptyString
      | t' => String c t'
      end
  end.

Definition strip_by (p : ascii -> bool) (s : string) : string :=
  rstrip_by p (lstrip_by p s).

(** The characters below 256 for which [str.isspace] holds; these are the
    ones [s.strip()] removes. *)
Definition isspace (c : ascii) : bool :=
  let n := nat_of_ascii c in
  ((9 <=? n) && (n <=? 13)) || ((28 <=? n) && (n <=? 32))
  || (n =? 133) || (n =? 160).

(** [s.strip()] *)
Definition strip (s : string) : string := strip_by isspace s.

(** [s.strip(cs)]: the characters of [cs] removed at both ends. *)
Definition strip_chars (cs s : string) : string :=
  strip_by (fun c => bool_decide (c ∈ chars cs)) s.

(** [s.split(sep)] for a one-character separator: never an empty list. *)
Fixpoint split (sep : ascii) (s : string) : list string :=
  match s with
  | EmptyString => [EmptyString]
  | String c t =>
      if Ascii.eqb c sep then EmptyString :: split sep t
      else match split sep t with
           | h :: r => String c h :: r
           | [] => [String c EmptyString]
           end
  end.

(** Case folding of [re.IGNORECASE] on code points below 256 against an
    ASCII pattern: only the letters A-Z fold onto a-z. *)
Definition lower_char (c : ascii) : ascii :=
  let n := nat_of_ascii c in
  if (65 <=? n) && (n <=? 90) then ascii_of_nat (n + 32) else c.

Fixpoint lower (s : string) : string :=
  match s with
  | EmptyString => EmptyString
  | String c t => String (lower_char c) (lower t)
  end.

(** [s.lower()] on code points below 256: A-Z and the capital letters of
    Latin-1 move 32 places up. *)
Definition str_lower_char (c : ascii) : ascii :=
  let n := nat_of_ascii c in
  if ((65 <=? n) && (n <=? 90))
     || ((192 <=? n) && (n <=? 222) && negb (n =? 215))
  then ascii_of_nat (n + 32) else c.

Fixpoint str_lower (s : string) : string :=
  match s with
  | EmptyString => EmptyString
  | String c t => String (str_lower_char c) (str_lower t)
  end.

End Py.

(** ** Regular expressions: the fragment [re.compile] is used with *)

Module Re.

Inductive regex :=
| Lit (s : string)            (* a literal run of characters *)
| Cat (r1 r2 : regex)         (* r1 r2 *)
| Alt (r1 r2 : regex).        (* (r1|r2) *)

Record pattern := compile { pat_regex : regex; IGNORECASE : bool }.

(** Comparison of a pattern character with a text character.  The
    patterns of the program hold ASCII characters only; on the code points
    of the model (below 256) [re.IGNORECASE] identifies such a character
    with its other case among A-Z, a-z and with nothing else.  (Beyond the
    model it also identifies [s] with U+017F, [k] with U+212A and [i] with
    U+0130 and U+0131.) *)
Definition char_eq (icase : bool) (a b : ascii) : bool :=
  if icase then Ascii.eqb (Py.lower_char a) (Py.lower_char b)
  else Ascii.eqb a b.

(** The literal [p] read off the front of [s]: what is left of [s]. *)
Fixpoint eat (icase : bool) (p s : string) : option string :=
  match p, s with
  | EmptyString, _ => Some s
  | String _ _, EmptyString => None
  | String a p', String b s' =>
      if char_eq icase a b then eat icase p' s' else None
  end.

(** All ways [r] matches at the start of [s], each as the rest of [s]. *)
Fixpoint match_here (icase : bool) (r : regex) (s : string) : list string :=
  match r with
  | Lit p => match eat icase p s with Some rest => [rest] | None => [] end
  | Cat r1 r2 =>
      flat_map (match_here icase r2) (match_here icase r1 s)
  | Alt r1 r2 => match_here icase r1 s ++ match_here icase r2 s
  end.

Definition matches_at (p : pattern) (s : string) : bool :=
  match match_here (IGNORECASE p) (pat_regex p) s with
  | [] => false
  | _ :: _ => true
  end.

(** [pat.search(s)] as a truth value: a match at some position. *)
Fixpoint search (p : pattern) (s : string) : bool :=
  matches_at p s ||
  match s with
  | EmptyString => false
  | String _ t => search p t
  end.

End Re.

(** ** The product classifier *)

Definition PRODUCT_PATTERNS : list Re.pattern :=
  [ Re.compile (Re.Lit "/MtG-") true;
    Re.compile (Re.Lit "/Magic-The-Gathering") true;
    Re.compile (Re.Cat (Re.Lit "Booster-")
                       (Re.Alt (Re.Lit "Box") (Re.Lit "Display"))) true ].

Definition NON_PRODUCT_MARKERS : list string :=
  ["/c/"; "/en/c/"; "/m/"; "/Home"; "/search"; "/?"].

Definition looks_like_product (path : string) : bool :=
  if existsb (fun seg => Py.str_in seg path) NON_PRODUCT_MARKERS then false
  else if existsb (fun pat => Re.search pat path) PRODUCT_PATTERNS then true
  else
    if Py.str_in "/" path && negb (Py.str_in "." path)
       && (length (Py.split "/"%char (Py.strip_chars "/" path)) =? 1)
    then
      if 8 <? String.length (Py.strip_chars "/" path) then true else false
    else false.

(** ** Exceptions *)

Inductive exn :=
| ValueError | TypeError | AttributeError | OSError
| JSONDecodeError | RequestException | ParserRejectedMarkup | SMTPException.

Inductive result (A : Type) :=
| Ok (a : A)
| Raise (e : exn).
Arguments Ok {A} a.
Arguments Raise {A} e.

Definition rbind {A B} (r : result A) (k : A -> result B) : result B :=
  match r with
  | Ok a => k a
  | Raise e => Raise e
  end.

Declare Scope result_scope.
Delimit Scope result_scope with result.
Notation "x <- r ;; k" := (rbind r (fun x => k))
  (at level 100, r at next level, right associativity) : result_scope.

(** ** The packages the monitor imports

    [urllib.parse] and [bs4] are not part of the repository: the monitor is
    verified against their interface.  Each call may raise ([urljoin] and
    [urlparse] raise [ValueError] on a malformed bracketed host, the HTML
    parser can reject markup). *)

(** The fields of [urlparse(...)] the monitor reads. *)
Record ParseResult := { netloc : string; path : string }.

(** An [a] element with an [href] attribute: [a["href"]] and
    [a.get_text(strip=True)]. *)
Record anchor := { href : string; text : string }.

Class Packages := {
  (** [urljoin(base, url)] *)
  urljoin : string -> string -> result string;
  (** [urlparse(url)] *)
  urlparse : string -> result ParseResult;
  (** [BeautifulSoup(html, "html.parser").find_all("a", href=True)], in
      document order *)
  find_all_a_href : string -> result (list anchor);
}.

(** The [hostname] attribute of a parse result, from its [netloc]
    ([urllib.parse._NetlocResultMixinStr]): the user information up to the
    last [@] and the port are dropped, the host is lower-cased up to a zone
    identifier. *)

(** [s.partition(c)]: before, whether [c] was found, after. *)
Fixpoint partition_char (c : ascii) (s : string) : string * bool * string :=
  match s with
  | EmptyString => (EmptyString, false, EmptyString)
  | String a t =>
      if Ascii.eqb a c then (EmptyString, true, t)
      else let '(b, found, r) := partition_char c t in (String a b, found, r)
  end.

(** The part of [s] after the last [c], all of [s] when there is none: the
    third component of [s.rpartition(c)]. *)
Fixpoint after_last (c : ascii) (s : string) : string :=
  match s with
  | EmptyString => EmptyString
  | String a t =>
      if Py.str_in (String c EmptyString) t then after_last c t
      else if Ascii.eqb a c then t else s
  end.

Definition hostname (nl : string) : option string :=
  let hostinfo := after_last "@" nl in
  let '(_, have_open_br, bracketed) := partition_char "[" hostinfo in
  let host :=
    if have_open_br then (partition_char "]" bracketed).1.1
    else (partition_char ":" hostinfo).1.1 in
  if String.eqb host "" then None
  else
    let '(h, percent, zone) := partition_char "%" host in
    Some (Py.str_lower h +:+ (if percent then "%" else "") +:+ zone).

(** ** Link normalisation and extraction *)

Definition ALLOWED_NETLOCS : list string :=
  ["games-island.eu"; "www.games-island.eu"].

Section Extraction.
Context {pkgs : Packages}.
Local Open Scope result_scope.

Definition normalize_url (base href : string) : result (option string) :=
  if String.eqb href "" then Ok None
  else
    let href := Py.strip href in
    if Py.startswith href "#" || Py.str_in "javascript:" href then Ok None
    else
      abs_url <- urljoin base href ;;
      p <- urlparse abs_url ;;
      if bool_decide (netloc p ∈ ALLOWED_NETLOCS) then Ok (Some abs_url)
      else Ok None.

(** The body of the [for a in ...] loop, with [links] and [seen] threaded
    through. *)
Fixpoint extract_loop (base_url : string) (anchors : list anchor)
    (links : list (string * string)) (seen : gset string)
    : result (list (string * string)) :=
  match anchors with
  | [] => Ok links
  | a :: rest =>
      r <- normalize_url base_url (href a) ;;
      match r with
      | None => extract_loop base_url rest links seen
      | Some abs_url =>
          if String.eqb abs_url "" then extract_loop base_url rest links seen
          else
            p <- urlparse abs_url ;;
            if looks_like_product (path p) then
              let title :=
                Py.strip (if String.eqb (text a) "" then abs_url else text a) in
              if bool_decide (abs_url ∈ seen)
              then extract_loop base_url rest links seen
              else extract_loop base_url rest
                     (links ++ [(abs_url, title)]) ({[abs_url]} ∪ seen)
            else extract_loop base_url rest links seen
      end
  end.

Definition extract_product_links (html base_url : string)
    : result (list (string * string)) :=
  anchors <- find_all_a_href html ;;
  extract_loop base_url anchors [] ∅.

End Extraction.

(** ** Values kept in a set

    The monitor's sets hold URLs, but [load_state] builds its set from
    whatever the state file holds, so an element is any hashable JSON
    scalar.  JSON [true] and [false] are the integers 1 and 0 (in Python
    [True == 1] and both hash alike, so a set keeps one of them). *)

Inductive atom :=
| PNone
| PInt (z : Z)
| PStr (s : string).

#[global] Instance atom_eq_dec : EqDecision atom.
Proof. solve_decision. Defined.

#[global] Instance atom_countable : Countable atom.
Proof.
  refine (inj_countable'
    (fun a => match a with
              | PNone => inl ()
              | PInt z => inr (inl z)
              | PStr s => inr (inr s)
              end)
    (fun x => match x with
              | inl _ => PNone
              | inr (inl z) => PInt z
              | inr (inr s) => PStr s
              end) _).
  by intros [].
Defined.

Definition as_str (a : atom) : option string :=
  match a with PStr s => Some s | _ => None end.

Definition as_int (a : atom) : option Z :=
  match a with PInt z => Some z | _ => None end.

(** The set of atoms of a set of URLs. *)
Definition urls (S : gset string) : gset atom := set_map PStr S.

(** [sorted(l)].  Strings compare with strings (by code point) and
    integers with integers; any other comparison raises [TypeError], and a
    list of two or more elements cannot be sorted without comparing each
    element with a neighbour. *)
Definition sorted_list (l : list atom) : result (list atom) :=
  match mapM as_str l with
  | Some ss => Ok (PStr <$> merge_sort String.le ss)
  | None =>
      match mapM as_int l with
      | Some zs => Ok (PInt <$> merge_sort Z.le zs)
      | None => match l with [_] => Ok l | _ => Raise TypeError end
      end
  end.

(** [sorted(s)] for a set [s]. *)
Definition sorted (s : gset atom) : result (list atom) :=
  sorted_list (elements s).

(** [str(a)] *)
Definition py_str (a : atom) : string :=
  match a with
  | PNone => "None"
  | PInt z => pretty z
  | PStr s => s
  end.

(** ** The differ *)

Definition diff_links (old new : gset atom) : result (list atom) :=
  sorted (new ∖ old).

(** ** JSON documents

    What [json.load] returns.  Numbers are the integers (a number with a
    fraction or an exponent is outside the model); an object lists its
    members in document order. *)

#[local] Unset Elimination Schemes.
Inductive json :=
| JNull
| JBool (b : bool)
| JInt (z : Z)
| JStr (s : string)
| JArr (items : list json)
| JObj (members : list (string * json)).
#[local] Set Elimination Schemes.

(** [d.get(key, default)] on the members of an object: a repeated key has
    its last value. *)
Fixpoint members_get (members : list (string * json)) (key : string)
    (default : json) : json :=
  match members with
  | [] => default
  | (k, v) :: rest =>
      members_get rest key (if String.eqb k key then v else default)
  end.

(** [data.get(key, default)]: only a [dict] has the method. *)
Definition py_get (data : json) (key : string) (default : json)
    : result json :=
  match data with
  | JObj members => Ok (members_get members key default)
  | _ => Raise AttributeError
  end.

(** [hash(v)] succeeds on scalars only. *)
Definition atom_of (v : json) : result atom :=
  match v with
  | JNull => Ok PNone
  | JBool b => Ok (PInt (if b then 1 else 0))
  | JInt z => Ok (PInt z)
  | JStr s => Ok (PStr s)
  | JArr _ | JObj _ => Raise TypeError
  end.

Fixpoint atoms_of (l : list json) : result (list atom) :=
  match l with
  | [] => Ok []
  | v :: rest =>
      rbind (atom_of v) (fun a =>
      rbind (atoms_of rest) (fun r => Ok (a :: r)))
  end.

(** [set(v)]: the elements of a list, the characters of a string, the keys
    of a dict; anything else is not iterable. *)
Definition py_set (v : json) : result (gset atom) :=
  match v with
  | JArr items => rbind (atoms_of items) (fun l => Ok (list_to_set l))
  | JStr s =>
      Ok (list_to_set ((fun c => PStr (String c EmptyString)) <$> Py.chars s))
  | JObj members => Ok (list_to_set ((fun kv => PStr kv.1) <$> members))
  | JNull | JBool _ | JInt _ => Raise TypeError
  end.

Definition json_of_atom (a : atom) : json :=
  match a with
  | PNone => JNull
  | PInt z => JInt z
  | PStr s => JStr s
  end.

(** ** The world of a run *)

(** The state file: missing, or present with what [open] followed by
    [json.load] makes of it ([OSError] when it cannot be read,
    [JSONDecodeError] when it is not JSON). *)
Inductive state_file :=
| Missing
| Present (contents : result json).

Inductive level := INFO | WARNING | ERROR.

Inductive event :=
| EvLog (lvl : level) (msg : string)     (* a call of [logging.<lvl>] *)
| EvMail (subject body : string)         (* a message accepted by the server *)
| EvWrite (payload : json).              (* the state file rewritten *)

Record state := { file : state_file; trace : list event }.

(** How [open(STATE_FILE, "w")] and [json.dump] end. *)
Inductive write_outcome :=
| Written       (* the file now holds the payload *)
| OpenFails     (* [open] raises, the file is as before *)
| DumpFails.    (* [open] truncated the file, then the write raised *)

(** The module constants, as they stand once the module is loaded, and
    what the outside answers during one run. *)
Record environment := {
  CATEGORY_URL : string;
  SMTP_HOST : string;
  SMTP_USER : string;
  SMTP_PASS : string;
  EMAIL_FROM : string;
  EMAIL_TO : string;
  NOTIFY_ON_FIRST_RUN : option string;
  (** [requests.get] followed by [raise_for_status]: the body, or the
      transport or status error *)
  requests_get : string -> result string;
  (** the SMTP session: [starttls], [login], [sendmail] *)
  smtp_session : result unit;
  fs_write : write_outcome;
  (** [datetime.now(timezone.utc).isoformat()] *)
  utcnow : string;
}.

(** ** The monad of the orchestrator: state and exceptions *)

Definition M (A : Type) : Type := state -> result A * state.

Definition ret {A} (a : A) : M A := fun st => (Ok a, st).

Definition bind {A B} (m : M A) (k : A -> M B) : M B :=
  fun st =>
    match m st with
    | (Ok a, st') => k a st'
    | (Raise e, st') => (Raise e, st')
    end.

Definition lift {A} (r : result A) : M A := fun st => (r, st).

(** [try: m  except Exception as e: h e] *)
Definition try_except {A} (m : M A) (h : exn -> M A) : M A :=
  fun st =>
    match m st with
    | (Ok a, st') => (Ok a, st')
    | (Raise e, st') => h e st'
    end.

Definition add_event (ev : event) (st : state) : state :=
  {| file := file st; trace := trace st ++ [ev] |}.

Definition emit (ev : event) : M unit :=
  fun st => (Ok (), add_event ev st).

Definition log (lvl : level) (msg : string) : M unit := emit (EvLog lvl msg).

Declare Scope monitor_scope.
Delimit Scope monitor_scope with M.
Notation "x <- m ;; k" := (bind m (fun x => k))
  (at level 100, m at next level, right associativity) : monitor_scope.
Notation "m ;; k" := (bind m (fun _ => k))
  (at level 100, right associativity) : monitor_scope.

(** ** State store, notifier and orchestrator *)

Section Monitor.
Context {pkgs : Packages} (env : environment).
Local Open Scope monitor_scope.

(** [http_get(url)]: one GET with the browser-like headers, then
    [raise_for_status]; the text of the response. *)
Definition http_get (url : string) : result string := requests_get env url.

(** [os.path.exists(STATE_FILE)] *)
Definition path_exists : M bool :=
  fun st => (Ok (match file st with Missing => false | Present _ => true end),
             st).

(** [with open(STATE_FILE, "r") as f: data = json.load(f)] *)
Definition read_json : M json :=
  fun st =>
    match file st with
    | Missing => (Raise OSError, st)
    | Present contents => (contents, st)
    end.

Definition load_state : M (gset atom) :=
  found <- path_exists ;;
  if negb found then ret ∅
  else
    try_except
      (data <- read_json ;;
       v <- lift (py_get data "product_urls" (JArr [])) ;;
       lift (py_set v))
      (fun _ => log WARNING "Konnte State nicht laden: %s" ;; ret ∅).

(** [with open(STATE_FILE, "w") as f: json.dump(payload, f, ...)] *)
Definition write_json (payload : json) : M unit :=
  fun st =>
    match fs_write env with
    | Written =>
        (Ok (), {| file := Present (Ok payload);
                   trace := trace st ++ [EvWrite payload] |})
    | OpenFails => (Raise OSError, st)
    | DumpFails =>
        (Raise OSError,
         {| file := Present (Raise JSONDecodeError); trace := trace st |})
    end.

Definition snapshot (saved_at : string) (product_urls : list atom) : json :=
  JObj [("saved_at", JStr saved_at);
        ("product_urls", JArr (json_of_atom <$> product_urls))].

Definition save_state (urls_ : gset atom) : M unit :=
  product_urls <- lift (sorted urls_) ;;
  write_json (snapshot (utcnow env) product_urls).

Definition send_email (subject body : string) : M bool :=
  if negb (negb (String.eqb (SMTP_HOST env) "")
           && negb (String.eqb (SMTP_USER env) "")
           && negb (String.eqb (SMTP_PASS env) "")
           && negb (String.eqb (EMAIL_FROM env) "")
           && negb (String.eqb (EMAIL_TO env) ""))
  then log ERROR "E-Mail nicht konfiguriert." ;; ret false
  else
    try_except
      (lift (smtp_session env) ;;
       emit (EvMail subject body) ;;
       log INFO "E-Mail versendet an %s" ;;
       ret true)
      (fun _ => log ERROR "E-Mail-Fehler: %s" ;; ret false).

(** The text of the mail: a header line, an empty line, one bullet line
    for each URL, joined by newlines.  (The bullet and the dash of the
    subject are code points above 255, written here in UTF-8.) *)
Definition mail_subject : string := "Games Island – Neue Einträge".

Definition mail_body (new_urls : list atom) : string :=
  String.concat (String "010" EmptyString)
    (["Neue Produkte bei Games Island entdeckt:"; ""]
     ++ ((fun u => "• " +:+ py_str u) <$> new_urls)).

Definition notify_new_items (new_urls : list atom) : M unit :=
  match new_urls with
  | [] => log INFO "Keine neuen Produkte gefunden."
  | _ :: _ => send_email mail_subject (mail_body new_urls) ;; ret ()
  end.

Definition main : M Z :=
  fun st =>
    match http_get (CATEGORY_URL env) with
    | Raise _ => (log ERROR "HTTP-Fehler: %s" ;; ret 2%Z) st
    | Ok resp_text =>
        (links <- lift (extract_product_links resp_text (CATEGORY_URL env)) ;;
         let current_urls : gset atom := list_to_set (PStr <$> links.*1) in
         (if bool_decide (current_urls = ∅)
          then log WARNING "Konnte keine Produkt-Links erkennen."
          else ret ()) ;;
         prev_urls <- load_state ;;
         let first_run := size prev_urls =? 0 in
         new <- lift (diff_links prev_urls current_urls) ;;
         if first_run then
           log INFO "Erstlauf – speichere (%d Links)." ;;
           save_state current_urls ;;
           (if bool_decide (NOTIFY_ON_FIRST_RUN env = Some "1")
            then l <- lift (sorted current_urls) ;; notify_new_items l
            else ret ()) ;;
           ret 0%Z
         else
           match new with
           | _ :: _ =>
               log INFO "Neue Produkte: %d" ;;
               notify_new_items new ;;
               save_state (prev_urls ∪ list_to_set new) ;;
               ret 0%Z
           | [] =>
               log INFO "Keine neuen Produkte seit letztem Check." ;;
               ret 0%Z
           end) st
    end.

(** [sys.exit(main())]: the status of the process.  An exception that
    leaves [main] ends the interpreter with status 1. *)
Definition exit_code (st : state) : Z :=
  match (main st).1 with
  | Ok code => code
  | Raise _ => 1%Z
  end.

End Monitor.

(** ** A reference instance of the packages, for the worked examples

    [ref_urlparse] splits a URL the way [urllib.parse] does when the URL
    has no parameters: a scheme up to the first colon, a network location
    after [//] up to the next [/], [?] or [#], then the path up to [?] or
    [#].  [ref_urljoin] covers an empty reference, a reference with a
    scheme and a reference that is an absolute path (without dot
    segments).  The parser knows one page. *)

Module Ref.

Definition is_scheme_char (c : ascii) : bool :=
  let n := nat_of_ascii c in
  ((97 <=? n) && (n <=? 122)) || ((65 <=? n) && (n <=? 90))
  || ((48 <=? n) && (n <=? 57))
  || bool_decide (c ∈ Py.chars "+-.").

Definition is_alpha (c : ascii) : bool :=
  let n := nat_of_ascii c in
  ((97 <=? n) && (n <=? 122)) || ((65 <=? n) && (n <=? 90)).

(** The scheme and what follows its colon, when [url] starts with one. *)
Definition split_scheme (url : string) : option (string * string) :=
  let '(before, found, after) := partition_char ":" url in
  match before with
  | String c _ =>
      if found && is_alpha c && forallb is_scheme_char (Py.chars before)
      then Some (Py.str_lower before, after) else None
  | EmptyString => None
  end.

(** [s] cut at the first character satisfying [p]. *)
Fixpoint break (p : ascii -> bool) (s : string) : string * string :=
  match s with
  | EmptyString => (EmptyString, EmptyString)
  | String c t =>
      if p c then (EmptyString, s)
      else let '(a, b) := break p t in (String c a, b)
  end.

Definition split_netloc (rest : string) : string * string :=
  match rest with
  | String "/" (String "/" r) =>
      break (fun c => bool_decide (c ∈ Py.chars "/?#")) r
  | _ => (EmptyString, rest)
  end.

Definition ref_urlparse (url : string) : result ParseResult :=
  let rest := match split_scheme url with Some (_, r) => r | None => url end in
  let '(nl, rest) := split_netloc rest in
  if xorb (Py.str_in "[" nl) (Py.str_in "]" nl) then Raise ValueError
  else
    Ok {| netloc := nl;
          path := (break (fun c => bool_decide (c ∈ Py.chars "?#")) rest).1 |}.

Definition ref_urljoin (base url : string) : result string :=
  if String.eqb base "" then Ok url
  else if String.eqb url "" then Ok base
  else
    match split_scheme url with
    | Some _ => rbind (ref_urlparse url) (fun _ => Ok url)
    | None =>
        rbind (ref_urlparse base) (fun b =>
        match split_scheme base with
        | Some (scheme, _) =>
            if Py.startswith url "/" && negb (Py.startswith url "//")
            then Ok (scheme +:+ "://" +:+ netloc b +:+ url)
            else Ok url
        | None => Ok url
        end)
    end.

Definition packages (page : string) (anchors : list anchor) : Packages :=
  {| urljoin := ref_urljoin;
     urlparse := ref_urlparse;
     find_all_a_href :=
       fun html => if String.eqb html page then Ok anchors else Ok [] |}.

End Ref.

(** ** The worked examples *)

Module Example.

Definition category_url : string :=
  "https://games-island.eu/c/Magic-The-Gathering/MtG-Booster-Displays-englisch".

Definition A : string := "https://games-island.eu/MtG-Alpha-Booster-Display".
Definition B : string := "https://games-island.eu/MtG-Beta-Booster-Display".
Definition C : string := "https://games-island.eu/MtG-Gamma-Booster-Display".

(** A listing with the products B and C, a category link, a link that
    leaves the site and an anchor whose [href] is blank. *)
Definition page_BC : string :=
  "<a href='/MtG-Beta-Booster-Display'>Beta</a>" +:+
  "<a href='/c/Magic-The-Gathering'>Magic</a>" +:+
  "<a href='https://partner.example/MtG-Gamma-Booster-Display'>Ad</a>" +:+
  "<a href='https://games-island.eu/MtG-Gamma-Booster-Display'> </a>" +:+
  "<a href=' '>blank</a>" +:+
  "<a href='/MtG-Beta-Booster-Display'>Beta again</a>".

Definition anchors_BC : list anchor :=
  [ {| href := "/MtG-Beta-Booster-Display"; text := "Beta" |};
    {| href := "/c/Magic-The-Gathering"; text := "Magic" |};
    {| href := "https://partner.example/MtG-Gamma-Booster-Display";
       text := "Ad" |};
    {| href := "https://games-island.eu/MtG-Gamma-Booster-Display";
       text := "" |};
    {| href := " "; text := "blank" |};
    {| href := "/MtG-Beta-Booster-Display"; text := "Beta again" |} ].

#[export] Instance packages_BC : Packages := Ref.packages page_BC anchors_BC.

(** A run that fetches [page], with the mail settings complete or not and
    the given outcomes of the mail session and of the write. *)
Definition env_of (page : result string) (configured : bool)
    (smtp : result unit) (w : write_outcome) : environment :=
  {| CATEGORY_URL := category_url;
     SMTP_HOST := if configured then "smtp.example.org" else "";
     SMTP_USER := "monitor";
     SMTP_PASS := "secret";
     EMAIL_FROM := "monitor@example.org";
     EMAIL_TO := "owner@example.org";
     NOTIFY_ON_FIRST_RUN := None;
     requests_get := fun url =>
       if String.eqb url category_url then page else Raise RequestException;
     smtp_session := smtp;
     fs_write := w;
     utcnow := "2024-05-01T06:00:00+00:00" |}.

Definition env_ok : environment :=
  env_of (Ok page_BC) true (Ok ()) Written.

Definition file_of (l : list string) : state_file :=
  Present (Ok (JObj [("saved_at", JStr "2024-04-30T06:00:00+00:00");
                     ("product_urls", JArr (JStr <$> l))])).

Definition st_AB : state := {| file := file_of [A; B]; trace := [] |}.
Definition st_BC : state := {| file := file_of [B; C]; trace := [] |}.
Definition st_fresh : state := {| file := Missing; trace := [] |}.

(** A degraded run: mail settings missing, state file not JSON. *)
Definition env_degraded : environment :=
  env_of (Ok page_BC) false (Raise SMTPException) Written.
Definition st_corrupt : state :=
  {| file := Present (Raise JSONDecodeError); trace := [] |}.

(** A run in which the state file cannot be opened for writing. *)
Definition env_read_only : environment :=
  env_of (Ok page_BC) true (Ok ()) OpenFails.

End Example.

(** ** Notions of the specification *)

(** The non-empty pieces of a string cut at a separator; its first piece,
    and the non-empty ones among the others. *)
Definition pieces_of (sep : ascii) (s : string) : list string :=
  filter (fun seg => seg ≠ "") (Py.split sep s).
Definition first_piece_of (sep : ascii) (s : string) : string :=
  hd "" (Py.split sep s).
Definition later_pieces_of (sep : ascii) (s : string) : list string :=
  filter (fun seg => seg ≠ "") (tl (Py.split sep s)).

(** The non-empty segments of a path: the pieces between slashes. *)
Definition segments (path : string) : list string := pieces_of "/" path.

(** What the state file records: the set [load_state] builds inside its
    [try], as a function of the file alone. *)
Definition stored_urls (f : state_file) : result (gset atom) :=
  match f with
  | Missing => Ok ∅
  | Present contents =>
      rbind contents (fun data =>
      rbind (py_get data "product_urls" (JArr [])) py_set)
  end.

(** The five mail settings are all present. *)
Definition mail_configured (env : environment) : Prop :=
  SMTP_HOST env ≠ "" ∧ SMTP_USER env ≠ "" ∧ SMTP_PASS env ≠ "" ∧
  EMAIL_FROM env ≠ "" ∧ EMAIL_TO env ≠ "".

(** An element that is a string, as every URL is. *)
Definition is_url (a : atom) : Prop := is_Some (as_str a).

(** The three rules of the classifier, in the words of the specification. *)
Definition has_reject_marker (path : string) : bool :=
  existsb (fun seg => Py.str_in seg path) NON_PRODUCT_MARKERS.

Definition matches_accept_pattern (path : string) : bool :=
  existsb (fun pat => Re.search pat path) PRODUCT_PATTERNS.

(** The third rule as the code tests it. *)
Definition fallback_rule (path : string) : bool :=
  Py.str_in "/" path && negb (Py.str_in "." path)
  && (length (Py.split "/"%char (Py.strip_chars "/" path)) =? 1)
  && (8 <? String.length (Py.strip_chars "/" path)).

(** An ordered rule chain: the first rule that applies gives the verdict. *)
Definition rule : Type := (string → bool) * bool.

Fixpoint first_applicable (rules : list rule) (default : bool)
    (path : string) : bool :=
  match rules with
  | [] => default
  | (applies, verdict) :: rest =>
      if applies path then verdict else first_applicable rest default path
  end.

Definition RULES : list rule :=
  [ (has_reject_marker, false);
    (matches_accept_pattern, true);
    (fallback_rule, true) ].

(** The fallback in the words of the specification: exactly one non-empty
    segment, no dot, and the segment longer than 8 characters. *)
Definition one_long_segment (path : string) : Prop :=
  Py.str_in "." path = false ∧
  ∃ seg, segments path = [seg] ∧ 8 < String.length seg.

(** ** Notions for the further properties *)

(** The title recorded for an anchor whose link resolved to [abs_url]. *)
Definition title_of (a : anchor) (abs_url : string) : string :=
  Py.strip (if String.eqb (text a) "" then abs_url else text a).

(** The anchor [a] passes the loop body with the URL [u]: its [href]
    normalises to [u], which is not empty and has a product-like path. *)
Definition accepts {pkgs : Packages} (base : string) (a : anchor)
    (u : string) : Prop :=
  normalize_url base (href a) = Ok (Some u) ∧ u ≠ "" ∧
  ∃ p, urlparse u = Ok p ∧ looks_like_product (path p) = true.

(** The messages accepted by the server and the payloads written, among
    some events. *)
Definition mails (evs : list event) : list (string * string) :=
  omap (fun ev => match ev with EvMail s b => Some (s, b) | _ => None end) evs.

Definition writes (evs : list event) : list json :=
  omap (fun ev => match ev with EvWrite j => Some j | _ => None end) evs.

(** The lines of the mail for a list of URLs. *)
Definition mail_lines (new_urls : list atom) : list string :=
  ["Neue Produkte bei Games Island entdeckt:"; ""]
  ++ ((fun u => "• " +:+ py_str u) <$> new_urls).

(** Further worked examples. *)
Module ExampleMore.
Import Example.

(** A state file that already lists A, B and C. *)
Definition st_ABC : state := {| file := file_of [A; B; C]; trace := [] |}.

(** The complete run of [Example.env_ok], with the first-run flag set. *)
Definition env_notify : environment :=
  {| CATEGORY_URL := CATEGORY_URL env_ok;
     SMTP_HOST := SMTP_HOST env_ok;
     SMTP_USER := SMTP_USER env_ok;
     SMTP_PASS := SMTP_PASS env_ok;
     EMAIL_FROM := EMAIL_FROM env_ok;
     EMAIL_TO := EMAIL_TO env_ok;
     NOTIFY_ON_FIRST_RUN := Some "1";
     requests_get := requests_get env_ok;
     smtp_session := smtp_session env_ok;
     fs_write := fs_write env_ok;
     utcnow := utcnow env_ok |}.

(** The links of [Example.page_BC]. *)
Definition links_BC : list (string * string) := [(B, "Beta"); (C, C)].

(** A set that mixes a string and a number. *)
Definition mixed : gset atom := {[PStr "a"; PInt 1]}.

(** A state file, edited by hand, whose [product_urls] lists a number. *)
Definition st_number : state :=
  {| file := Present (Ok (JObj [("saved_at", JStr "2024-04-30T06:00:00+00:00");
                                ("product_urls", JArr [JInt 1])]));
     trace := [] |}.

End ExampleMore.

(** ** Facts about the string operations *)

Section Strings.

Lemma prefix_nil s : String.prefix "" s = true.
Proof. by destruct s. Qed.

Lemma str_in_char c s : Py.str_in (String c "") s = true ↔ c ∈ Py.chars s.
Proof.
  induction s as [|a t IH]; simpl.
  - split; [done | by intros ?%elem_of_nil].
  - rewrite elem_of_cons, <- IH. destruct (ascii_dec c a) as [->|Hne].
    + rewrite prefix_nil. simpl. by split; [left|].
    + simpl. split; [by right | by intros [?|?]].
Qed.

Lemma str_in_char_false c s : Py.str_in (String c "") s = false ↔ c ∉ Py.chars s.
Proof. rewrite <- str_in_char. by destruct (Py.str_in _ s). Qed.

Variable sep : ascii.
Variable p : ascii → bool.
Hypothesis p_sep : ∀ c, p c = true ↔ c = sep.

Lemma split_cons_inv s : ∃ h r, Py.split sep s = h :: r.
Proof.
  induction s as [|c t (h & r & IH)]; simpl; [by eauto|].
  destruct (Ascii.eqb c sep); [by eauto|]. rewrite IH. by eauto.
Qed.

Lemma split_sep t : Py.split sep (String sep t) = "" :: Py.split sep t.
Proof. simpl. by rewrite Ascii.eqb_refl. Qed.

Lemma split_other c t h r :
  c ≠ sep → Py.split sep t = h :: r →
  Py.split sep (String c t) = String c h :: r.
Proof.
  intros Hc Ht. simpl. rewrite Ht.
  by destruct (Ascii.eqb_spec c sep).
Qed.

(** Without a separator the string is its only piece, and conversely. *)
Lemma split_no_sep s : sep ∉ Py.chars s → Py.split sep s = [s].
Proof.
  induction s as [|c t IH]; simpl; [done|].
  rewrite not_elem_of_cons. intros [Hc Ht].
  destruct (Ascii.eqb_spec c sep); [congruence|]. by rewrite (IH Ht).
Qed.

Lemma split_single s : length (Py.split sep s) = 1 → sep ∉ Py.chars s.
Proof.
  induction s as [|c t IH]; simpl; [by intros _ ?%elem_of_nil|].
  destruct (Ascii.eqb_spec c sep) as [->|Hc].
  - destruct (split_cons_inv t) as (h & r & ->). simpl. lia.
  - destruct (split_cons_inv t) as (h & r & Ht). rewrite Ht in *. simpl.
    intros Hl. rewrite not_elem_of_cons. split; [done|]. by apply IH.
Qed.

Lemma rstrip_sep t :
  Py.rstrip_by p (String sep t) =
  match Py.rstrip_by p t with
  | EmptyString => EmptyString
  | String a u => String sep (String a u)
  end.
Proof.
  simpl. destruct (Py.rstrip_by p t); [|done].
  by rewrite (proj2 (p_sep sep) eq_refl).
Qed.

Lemma rstrip_other c t :
  c ≠ sep → Py.rstrip_by p (String c t) = String c (Py.rstrip_by p t).
Proof.
  intros Hc. simpl. destruct (Py.rstrip_by p t); [|done].
  destruct (p c) eqn:Hp; [|done]. by apply p_sep in Hp.
Qed.

Lemma rstrip_idemp s : Py.rstrip_by p (Py.rstrip_by p s) = Py.rstrip_by p s.
Proof.
  induction s as [|c t IH]; [done|].
  destruct (decide (c = sep)) as [->|Hc].
  - rewrite rstrip_sep. destruct (Py.rstrip_by p t) as [|a u] eqn:Ht; [done|].
    rewrite rstrip_sep, IH. done.
  - by rewrite !rstrip_other, IH.
Qed.

Local Abbreviation pieces := (pieces_of sep).
Local Abbreviation first_piece := (first_piece_of sep).
Local Abbreviation later_pieces := (later_pieces_of sep).

Lemma pieces_first_later s :
  pieces s = (if decide (first_piece s = "") then [] else [first_piece s])
             ++ later_pieces s.
Proof.
  unfold pieces_of, first_piece_of, later_pieces_of.
  destruct (split_cons_inv s) as (h & r & ->). simpl.
  rewrite filter_cons. by destruct (decide (h = "")); case_decide.
Qed.

Lemma pieces_sep t : pieces (String sep t) = pieces t.
Proof. unfold pieces_of. rewrite split_sep, filter_cons. by case_decide. Qed.

Lemma first_piece_sep t : first_piece (String sep t) = "".
Proof. unfold first_piece_of. by rewrite split_sep. Qed.

Lemma later_pieces_sep t : later_pieces (String sep t) = pieces t.
Proof. unfold later_pieces_of, pieces_of. by rewrite split_sep. Qed.

Lemma first_piece_other c t :
  c ≠ sep → first_piece (String c t) = String c (first_piece t).
Proof.
  intros Hc. unfold first_piece_of.
  destruct (split_cons_inv t) as (h & r & Ht).
  by rewrite (split_other c t h r Hc Ht), Ht.
Qed.

Lemma later_pieces_other c t :
  c ≠ sep → later_pieces (String c t) = later_pieces t.
Proof.
  intros Hc. unfold later_pieces_of.
  destruct (split_cons_inv t) as (h & r & Ht).
  by rewrite (split_other c t h r Hc Ht), Ht.
Qed.

Lemma pieces_other c t :
  c ≠ sep → pieces (String c t) = String c (first_piece t) :: later_pieces t.
Proof.
  intros Hc. rewrite pieces_first_later, first_piece_other, later_pieces_other
    by done. by case_decide.
Qed.

Lemma pieces_lstrip s : pieces (Py.lstrip_by p s) = pieces s.
Proof.
  induction s as [|c t IH]; [done|]. simpl.
  destruct (p c) eqn:Hp; [|done].
  apply p_sep in Hp as ->. by rewrite pieces_sep.
Qed.

Lemma pieces_rstrip_split s :
  first_piece (Py.rstrip_by p s) = first_piece s ∧
  later_pieces (Py.rstrip_by p s) = later_pieces s.
Proof.
  induction s as [|c t [IH1 IH2]]; [done|].
  destruct (decide (c = sep)) as [->|Hc].
  - rewrite rstrip_sep, first_piece_sep, later_pieces_sep.
    assert (pieces (Py.rstrip_by p t) = pieces t) as Hp
      by (by rewrite !pieces_first_later, IH1, IH2).
    destruct (Py.rstrip_by p t) as [|a u].
    + by rewrite <- Hp.
    + by rewrite first_piece_sep, later_pieces_sep.
  - rewrite rstrip_other, first_piece_other, later_pieces_other by done.
    by rewrite first_piece_other, later_pieces_other, IH1, IH2 by done.
Qed.

Lemma pieces_rstrip s : pieces (Py.rstrip_by p s) = pieces s.
Proof.
  rewrite !pieces_first_later.
  by destruct (pieces_rstrip_split s) as [-> ->].
Qed.

Lemma pieces_strip s : pieces (Py.strip_by p s) = pieces s.
Proof. unfold Py.strip_by. by rewrite pieces_rstrip, pieces_lstrip. Qed.

(** A stripped string neither starts nor ends with the separator. *)
Lemma lstrip_head s c t : Py.lstrip_by p s = String c t → c ≠ sep.
Proof.
  induction s as [|a u IH]; [done|]. simpl.
  destruct (p a) eqn:Hp; [done|].
  intros [= -> ->] ->. rewrite (proj2 (p_sep sep) eq_refl) in Hp. done.
Qed.

Lemma rstrip_head s c t :
  Py.rstrip_by p s = String c t → ∃ u, s = String c u.
Proof.
  destruct s as [|a u]; [done|]. simpl.
  destruct (Py.rstrip_by p u); [destruct (p a)|]; intros [= -> <-]; eauto.
Qed.

Lemma strip_head s c t : Py.strip_by p s = String c t → c ≠ sep.
Proof.
  unfold Py.strip_by. intros (u & Hu)%rstrip_head. by eapply lstrip_head.
Qed.

Lemma strip_rstrip s : Py.rstrip_by p (Py.strip_by p s) = Py.strip_by p s.
Proof. apply rstrip_idemp. Qed.

(** A right-stripped, non-empty string has a non-empty piece. *)
Lemma rstripped_pieces s : Py.rstrip_by p s = s → s ≠ "" → pieces s ≠ [].
Proof.
  induction s as [|c t IH]; [done|]. intros Hs _.
  destruct (decide (c = sep)) as [->|Hc].
  - rewrite rstrip_sep in Hs. rewrite pieces_sep.
    destruct (Py.rstrip_by p t) as [|a u] eqn:Ht; [done|].
    injection Hs as Hs. subst t. by apply IH.
  - by rewrite pieces_other.
Qed.

Lemma rstripped_later_pieces s :
  Py.rstrip_by p s = s → sep ∈ Py.chars s → later_pieces s ≠ [].
Proof.
  induction s as [|c t IH]; [by intros _ ?%elem_of_nil|]. intros Hs Hin.
  destruct (decide (c = sep)) as [->|Hc].
  - rewrite rstrip_sep in Hs. rewrite later_pieces_sep.
    destruct (Py.rstrip_by p t) as [|a u] eqn:Ht; [done|].
    injection Hs as Hs. subst t. by apply rstripped_pieces.
  - rewrite rstrip_other in Hs by done. injection Hs as Hs.
    rewrite later_pieces_other by done. apply IH; [done|].
    simpl in Hin. apply elem_of_cons in Hin as [?|?]; congruence.
Qed.

(** The stripped string is a single piece exactly when the string has at
    most one non-empty piece, which is then the stripped string. *)
Lemma strip_single_piece s :
  length (Py.split sep (Py.strip_by p s)) = 1 →
  pieces s = if decide (Py.strip_by p s = "") then [] else [Py.strip_by p s].
Proof.
  intros Hl%split_single. rewrite <- pieces_strip.
  unfold pieces_of. rewrite (split_no_sep _ Hl), filter_cons, filter_nil.
  by destruct (decide (Py.strip_by p s = "")); case_decide.
Qed.

Lemma single_piece_strip s seg :
  pieces s = [seg] →
  Py.strip_by p s = seg ∧ length (Py.split sep (Py.strip_by p s)) = 1.
Proof.
  intros Hs. rewrite <- pieces_strip in Hs.
  destruct (decide (sep ∈ Py.chars (Py.strip_by p s))) as [Hin|Hnin].
  - exfalso. pose proof (strip_rstrip s) as Hr.
    destruct (Py.strip_by p s) as [|c t] eqn:Ht; [by apply elem_of_nil in Hin|].
    pose proof (strip_head _ _ _ Ht) as Hc.
    rewrite pieces_other in Hs by done. injection Hs as _ Hl.
    rewrite rstrip_other in Hr by done. injection Hr as Hr.
    simpl in Hin. apply elem_of_cons in Hin as [?|Hin]; [congruence|].
    by apply (rstripped_later_pieces t).
  - unfold pieces_of in Hs. rewrite (split_no_sep _ Hnin) in Hs |- *.
    rewrite filter_cons, filter_nil in Hs. case_decide; [|done].
    by injection Hs as ->.
Qed.

End Strings.

(** ** The classifier *)

Section Classifier.

Lemma strip_chars_slash_spec c :
  bool_decide (c ∈ Py.chars "/") = true ↔ c = "/"%char.
Proof.
  rewrite bool_decide_eq_true. simpl. rewrite elem_of_cons.
  split; [intros [?|?%elem_of_nil]; done | by left].
Qed.

(** The code's fallback test says what the specification says, and that
    the path holds a slash. *)
Lemma fallback_rule_spec path :
  fallback_rule path = true ↔
  Py.str_in "/" path = true ∧ one_long_segment path.
Proof.
  unfold fallback_rule, one_long_segment, segments, Py.strip_chars.
  change (filter _ (Py.split "/" path)) with (pieces_of "/" path).
  rewrite !andb_true_iff, negb_true_iff, Nat.eqb_eq, Nat.ltb_lt.
  set (p := fun c => bool_decide (c ∈ Py.chars "/")).
  split.
  - intros [[[Hs Hd] Hl] Hlen]. split_and!; [done..|].
    pose proof (strip_single_piece "/" p strip_chars_slash_spec path Hl) as Hp.
    unfold pieces_of in Hp. case_decide as He.
    + rewrite He in Hlen. simpl in Hlen. lia.
    + eauto.
  - intros (Hs & Hd & seg & Hseg & Hlen).
    destruct (single_piece_strip "/" p strip_chars_slash_spec path seg Hseg)
      as [-> Hl].
    done.
Qed.

Lemma looks_like_product_chain path :
  looks_like_product path = first_applicable RULES false path.
Proof.
  unfold looks_like_product, RULES, first_applicable, has_reject_marker,
    matches_accept_pattern, fallback_rule.
  destruct (existsb _ NON_PRODUCT_MARKERS); [done|].
  destruct (existsb _ PRODUCT_PATTERNS); [done|].
  destruct (Py.str_in "/" path && negb (Py.str_in "." path)
            && (length (Py.split "/" (Py.strip_chars "/" path)) =? 1));
    [|done].
  by destruct (8 <? String.length (Py.strip_chars "/" path)).
Qed.

(** Matching with [re.IGNORECASE] does not see the case of the text. *)
Lemma lower_char_idemp c : Py.lower_char (Py.lower_char c) = Py.lower_char c.
Proof. by destruct c as [[] [] [] [] [] [] [] []]. Qed.

Lemma eat_lower pat s :
  Re.eat true pat (Py.lower s) = Py.lower <$> Re.eat true pat s.
Proof.
  revert s. induction pat as [|a pat IH]; intros s; [done|].
  destruct s as [|b s]; [done|]. simpl.
  unfold Re.char_eq. rewrite lower_char_idemp.
  destruct (Ascii.eqb _ _); [apply IH | done].
Qed.

Lemma match_here_lower r s :
  Re.match_here true r (Py.lower s) = Py.lower <$> Re.match_here true r s.
Proof.
  revert s. induction r as [pat|r1 IH1 r2 IH2|r1 IH1 r2 IH2]; intros s; simpl.
  - rewrite eat_lower. by destruct (Re.eat true pat s).
  - rewrite IH1. induction (Re.match_here true r1 s) as [|x l IHl]; [done|].
    simpl. rewrite fmap_app, IH2. f_equal. apply IHl.
  - by rewrite fmap_app, IH1, IH2.
Qed.

Lemma search_lower pat s :
  Re.IGNORECASE pat = true → Re.search pat (Py.lower s) = Re.search pat s.
Proof.
  intros Hi. induction s as [|c s IH]; simpl.
  - unfold Re.matches_at. rewrite Hi.
    change EmptyString with (Py.lower EmptyString) at 1.
    rewrite match_here_lower. by destruct (Re.match_here _ _ _).
  - rewrite IH. f_equal. unfold Re.matches_at. rewrite Hi.
    change (String (Py.lower_char c) (Py.lower s)) with (Py.lower (String c s)).
    rewrite match_here_lower. by destruct (Re.match_here _ _ _).
Qed.

Lemma matches_accept_pattern_lower path :
  matches_accept_pattern (Py.lower path) = matches_accept_pattern path.
Proof.
  unfold matches_accept_pattern, PRODUCT_PATTERNS. simpl.
  by rewrite !search_lower.
Qed.

(** C3. The classifier is an ordered rule chain: reject markers, then the
    accept patterns, then the fallback heuristic, and the first rule that
    applies decides.  [/MtG-Booster-Display-Foo] is product-like;
    [/c/MtG-Booster-Displays] is not, although an accept pattern matches
    it. *)
Theorem looks_like_product_rule_order :
  (∀ path, looks_like_product path = first_applicable RULES false path) ∧
  looks_like_product "/MtG-Booster-Display-Foo" = true ∧
  looks_like_product "/c/MtG-Booster-Displays" = false ∧
  matches_accept_pattern "/c/MtG-Booster-Displays" = true.
Proof.
  split; [exact looks_like_product_chain|]. by vm_compute.
Qed.

(** C4, as the code has it.  For a path with no reject marker that matches
    no accept pattern, the classifier accepts exactly when the path holds a
    slash, has exactly one non-empty segment, holds no dot, and that
    segment is longer than 8 characters. *)
Theorem looks_like_product_fallback path :
  has_reject_marker path = false →
  matches_accept_pattern path = false →
  looks_like_product path = true ↔
  Py.str_in "/" path = true ∧ one_long_segment path.
Proof.
  intros Hr Ha. rewrite looks_like_product_chain. simpl.
  rewrite Hr, Ha, <- fallback_rule_spec. by destruct (fallback_rule path).
Qed.

Lemma looks_like_product_fallback_witness :
  looks_like_product "/abcdefghi" = true ↔
  Py.str_in "/" "/abcdefghi" = true ∧ one_long_segment "/abcdefghi".
Proof. apply (looks_like_product_fallback "/abcdefghi"); reflexivity. Defined.

(** C4 as stated fails on a path without a slash: ["abcdefghi"] has no
    reject marker, matches no accept pattern, is one segment of nine
    characters without a dot, and is not accepted. *)
Lemma looks_like_product_fallback_needs_slash :
  has_reject_marker "abcdefghi" = false ∧
  matches_accept_pattern "abcdefghi" = false ∧
  one_long_segment "abcdefghi" ∧
  looks_like_product "abcdefghi" = false.
Proof.
  split_and!; try reflexivity.
  split; [reflexivity|]. exists "abcdefghi". split; [reflexivity|].
  simpl. lia.
Qed.

(** C10. Reject markers are compared exactly, accept patterns without
    regard to case, so the case of a letter can flip the verdict:
    [/c/MtG-Foo] is rejected by the marker [/c/], [/C/MtG-Foo] holds no
    marker, matches [/MtG-] and is accepted. *)
Theorem looks_like_product_case_flip :
  looks_like_product "/c/MtG-Foo" = false ∧
  looks_like_product "/C/MtG-Foo" = true ∧
  has_reject_marker "/c/MtG-Foo" = true ∧
  has_reject_marker "/C/MtG-Foo" = false ∧
  Py.lower "/C/MtG-Foo" = Py.lower "/c/MtG-Foo" ∧
  (∀ path, matches_accept_pattern (Py.lower path)
           = matches_accept_pattern path).
Proof.
  split_and!; try reflexivity. exact matches_accept_pattern_lower.
Qed.

End Classifier.

(** ** Link normalisation and extraction *)

Section ExtractionFacts.
Context {pkgs : Packages}.

(** The three kinds of [href] the normaliser drops before resolving. *)
Lemma normalize_url_discards base href :
  href = "" ∨ Py.startswith (Py.strip href) "#" = true
  ∨ Py.str_in "javascript:" (Py.strip href) = true →
  normalize_url base href = Ok None.
Proof.
  unfold normalize_url. intros [->|[Hh|Hj]]; [done|..];
    destruct (String.eqb href ""); try done.
  - by rewrite Hh.
  - by rewrite Hj, orb_true_r.
Qed.

(** Every other [href] is resolved against the base, and kept when the
    network location of the result is on the allow-list. *)
Lemma normalize_url_resolves base href :
  href ≠ "" → Py.startswith (Py.strip href) "#" = false →
  Py.str_in "javascript:" (Py.strip href) = false →
  normalize_url base href =
  rbind (urljoin base (Py.strip href)) (fun abs_url =>
  rbind (urlparse abs_url) (fun p =>
  if bool_decide (netloc p ∈ ALLOWED_NETLOCS) then Ok (Some abs_url)
  else Ok None)).
Proof.
  intros Hne Hh Hj. unfold normalize_url.
  destruct (String.eqb_spec href ""); [done|]. by rewrite Hh, Hj.
Qed.

(** C5 at a blank [href].  The emptiness test comes before the trim, so an
    [href] of whitespace only is not dropped: it is resolved as the empty
    reference, which [urljoin] answers with the base URL, and the base URL
    is returned when its own network location is allowed. *)
Theorem normalize_url_blank_href base ws p :
  ws ≠ "" → Py.strip ws = "" →
  urljoin base "" = Ok base → urlparse base = Ok p →
  netloc p ∈ ALLOWED_NETLOCS →
  normalize_url base ws = Ok (Some base).
Proof.
  intros Hne Hws Hj Hp Hin.
  rewrite normalize_url_resolves by (by rewrite ?Hws).
  rewrite Hws, Hj. simpl. rewrite Hp. simpl.
  by rewrite bool_decide_eq_true_2.
Qed.

Lemma normalize_url_allowed base href u :
  normalize_url base href = Ok (Some u) →
  ∃ p, urlparse u = Ok p ∧ netloc p ∈ ALLOWED_NETLOCS.
Proof.
  unfold normalize_url. destruct (String.eqb href ""); [done|].
  destruct (_ || _); [done|].
  destruct (urljoin base (Py.strip href)) as [abs_url|]; [simpl|done].
  destruct (urlparse abs_url) as [p|] eqn:Hp; [simpl|done].
  case_bool_decide; [|done]. intros [= <-]. eauto.
Qed.

Lemma allowed_netloc_host nl :
  nl ∈ ALLOWED_NETLOCS →
  (nl = "games-island.eu" ∨ nl = "www.games-island.eu") ∧
  hostname nl = Some nl.
Proof.
  unfold ALLOWED_NETLOCS. rewrite !elem_of_cons, elem_of_nil.
  intros [->|[->|[]]]; split; auto.
Qed.

(** The loop only adds URLs that the normaliser returned. *)
Lemma extract_loop_allowed base anchors links seen out :
  extract_loop base anchors links seen = Ok out →
  Forall (fun l => ∃ p, urlparse l.1 = Ok p ∧ netloc p ∈ ALLOWED_NETLOCS)
    links →
  Forall (fun l => ∃ p, urlparse l.1 = Ok p ∧ netloc p ∈ ALLOWED_NETLOCS)
    out.
Proof.
  revert links seen. induction anchors as [|a rest IH]; intros links seen.
  - simpl. by intros [= <-].
  - simpl. destruct (normalize_url base (href a)) as [[u|]|] eqn:Hn;
      simpl; [|by apply IH|done].
    destruct (String.eqb u ""); [by apply IH|].
    destruct (urlparse u) as [p|] eqn:Hp; [simpl|done].
    destruct (looks_like_product (path p)); [|by apply IH].
    case_bool_decide; [by apply IH|].
    intros Hout Hl. apply (IH _ _ Hout).
    apply Forall_app. split; [done|]. apply Forall_singleton. simpl.
    by apply normalize_url_allowed in Hn.
Qed.

(** C2. Whatever the page and the base URL, every URL of the extraction
    result has the network location, and so the host, [games-island.eu] or
    [www.games-island.eu]. *)
Theorem extract_product_links_hosts html base links u title :
  extract_product_links html base = Ok links →
  (u, title) ∈ links →
  ∃ p, urlparse u = Ok p ∧
       (netloc p = "games-island.eu" ∨ netloc p = "www.games-island.eu") ∧
       hostname (netloc p) = Some (netloc p).
Proof.
  unfold extract_product_links.
  destruct (find_all_a_href html) as [anchors|]; [simpl|done].
  intros Hout%extract_loop_allowed; [|by apply Forall_nil].
  rewrite Forall_forall in Hout. intros (p & Hp & Hin)%Hout.
  exists p. split; [done|]. by apply allowed_netloc_host.
Qed.

(** The extraction returns as soon as the packages raise nothing. *)
Lemma extract_loop_returns base anchors links seen :
  (∀ b h, ∃ u, urljoin b h = Ok u) → (∀ u, ∃ p, urlparse u = Ok p) →
  ∃ out, extract_loop base anchors links seen = Ok out.
Proof.
  intros Hj Hp. revert links seen.
  induction anchors as [|a rest IH]; intros links seen; simpl; [by eauto|].
  assert (∃ r, normalize_url base (href a) = Ok r) as [r ->].
  { unfold normalize_url. destruct (String.eqb _ _); [by eauto|].
    destruct (_ || _); [by eauto|].
    destruct (Hj base (Py.strip (href a))) as [u ->]. simpl.
    destruct (Hp u) as [p ->]. simpl. case_bool_decide; eauto. }
  simpl. destruct r as [u|]; [|done].
  destruct (String.eqb u ""); [done|].
  destruct (Hp u) as [p ->]. simpl.
  destruct (looks_like_product (path p)); [|done]. by case_bool_decide.
Qed.

End ExtractionFacts.

Lemma normalize_url_blank_href_witness :
  normalize_url (pkgs := Example.packages_BC) Example.category_url " "
  = Ok (Some Example.category_url).
Proof.
  apply (normalize_url_blank_href (pkgs := Example.packages_BC)
           Example.category_url " "
           {| netloc := "games-island.eu";
              path := "/c/Magic-The-Gathering/MtG-Booster-Displays-englisch" |});
    [done | reflexivity | reflexivity | reflexivity | by left].
Defined.

Lemma extract_product_links_hosts_witness :
  ∃ p, urlparse (Packages := Example.packages_BC) Example.B = Ok p ∧
       (netloc p = "games-island.eu" ∨ netloc p = "www.games-island.eu") ∧
       hostname (netloc p) = Some (netloc p).
Proof.
  apply (extract_product_links_hosts (pkgs := Example.packages_BC)
           Example.page_BC Example.category_url
           [(Example.B, "Beta"); (Example.C, Example.C)] Example.B "Beta");
    [reflexivity | by left].
Defined.

(** ** Sorting and the differ *)

Section Differ.

Lemma mapM_as_str l ss : mapM as_str l = Some ss ↔ l = PStr <$> ss.
Proof.
  rewrite mapM_Some. split.
  - induction 1 as [|[] s l ss Hx _ IH]; simplify_eq/=; by f_equal.
  - intros ->. induction ss; constructor; done.
Qed.

Lemma sorted_list_strs ss :
  sorted_list (PStr <$> ss) = Ok (PStr <$> merge_sort String.le ss).
Proof.
  unfold sorted_list. by rewrite (proj2 (mapM_as_str _ ss) eq_refl).
Qed.

Lemma urls_strs (s : gset atom) :
  set_Forall is_url s → ∃ ss, elements s = PStr <$> ss.
Proof.
  intros Hs. destruct (mapM as_str (elements s)) as [ss|] eqn:Hm.
  - exists ss. by apply mapM_as_str.
  - exfalso. apply mapM_None in Hm. apply Exists_exists in Hm as (x & Hx & Hn).
    apply elem_of_elements, Hs in Hx as [? Hx]. congruence.
Qed.

(** A set of strings sorts, into the one ascending list of its elements. *)
Lemma sorted_urls (s : gset atom) :
  set_Forall is_url s →
  ∃ ss, sorted s = Ok (PStr <$> ss) ∧
        (∀ u, u ∈ ss ↔ PStr u ∈ s) ∧ NoDup ss ∧
        StronglySorted String.le ss.
Proof.
  intros (ss0 & Hel)%urls_strs. exists (merge_sort String.le ss0).
  unfold sorted. rewrite Hel, sorted_list_strs. split_and!.
  - done.
  - intros u. rewrite merge_sort_Permutation, <- elem_of_elements, Hel.
    rewrite list_elem_of_fmap. split; [by eauto|]. by intros (? & [= <-] & ?).
  - rewrite merge_sort_Permutation. apply (NoDup_fmap_1 PStr).
    rewrite <- Hel. apply NoDup_elements.
  - apply (StronglySorted_merge_sort _).
Qed.

Lemma urls_is_url (S : gset string) : set_Forall is_url (urls S).
Proof.
  intros x (u & -> & _)%elem_of_map. by eexists.
Qed.

Lemma elem_of_urls (S : gset string) u : PStr u ∈ urls S ↔ u ∈ S.
Proof.
  unfold urls. rewrite elem_of_map. split; [|by eauto].
  by intros (? & [= <-] & ?).
Qed.

Lemma diff_links_urls (old : gset atom) (new : gset string) :
  ∃ l, diff_links old (urls new) = Ok (PStr <$> l) ∧
       (∀ u, u ∈ l ↔ u ∈ new ∧ PStr u ∉ old) ∧ NoDup l ∧
       StronglySorted String.le l.
Proof.
  unfold diff_links.
  destruct (sorted_urls (urls new ∖ old)) as (l & Hl & Hin & Hnd & Hs).
  { intros x [Hx _]%elem_of_difference. by apply urls_is_url in Hx. }
  exists l. split_and!; [done| |done..].
  intros u. by rewrite Hin, elem_of_difference, elem_of_urls.
Qed.

(** C8. [diff_links old new] is the set difference [new − old] as an
    ascending list: it returns, its elements are exactly those of [new]
    that are not in [old], each once and in ascending order; no other list
    has these properties, and a second call returns the same list. *)
Theorem diff_links_spec (old : gset atom) (new : gset string) :
  ∃ l, diff_links old (urls new) = Ok (PStr <$> l) ∧
       (∀ u, u ∈ l ↔ u ∈ new ∧ PStr u ∉ old) ∧
       NoDup l ∧ StronglySorted String.le l ∧
       (∀ l', (∀ u, u ∈ l' ↔ u ∈ new ∧ PStr u ∉ old) → NoDup l' →
              StronglySorted String.le l' → l' = l) ∧
       (∀ r r', r = diff_links old (urls new) →
                r' = diff_links old (urls new) → r = r').
Proof.
  destruct (diff_links_urls old new) as (l & Hl & Hin & Hnd & Hs).
  exists l. split_and!; [done..| |congruence].
  intros l' Hin' Hnd' Hs'. apply (StronglySorted_unique String.le); [done..|].
  apply NoDup_Permutation; [done..|]. intros u. by rewrite Hin, Hin'.
Qed.

End Differ.

(** ** The state store *)

Section StateStore.

Lemma load_state_stored st :
  load_state st =
  match stored_urls (file st) with
  | Ok s => (Ok s, st)
  | Raise _ =>
      (Ok ∅, add_event (EvLog WARNING "Konnte State nicht laden: %s") st)
  end.
Proof.
  unfold load_state, bind, path_exists, try_except, read_json, lift, ret, log,
    emit, stored_urls.
  destruct st as [[|[data|e]] tr]; simpl; [done| |done].
  destruct (py_get data "product_urls" (JArr [])) as [v|]; simpl; [|done].
  by destruct (py_set v).
Qed.

Lemma members_get_absent members key default :
  key ∉ members.*1 → members_get members key default = default.
Proof.
  revert default. induction members as [|[k v] rest IH]; intros default;
    [done|].
  rewrite fmap_cons, not_elem_of_cons. simpl. intros [Hk Hrest].
  rewrite (IH _ Hrest). destruct (String.eqb_spec k key); congruence.
Qed.

Lemma atoms_of_json_of_atom l : atoms_of (json_of_atom <$> l) = Ok l.
Proof.
  induction l as [|a l IH]; [done|]. csimpl. rewrite IH. by destruct a.
Qed.

Lemma atoms_of_strs us : atoms_of (JStr <$> us) = Ok (PStr <$> us).
Proof. induction us as [|u us IH]; [done|]. csimpl. by rewrite IH. Qed.

(** C7. [load_state] returns a set and never raises.  The set is empty
    when the file is missing, cannot be read, is not JSON, is JSON but not
    an object, or is an object without the key [product_urls]; when
    [product_urls] holds a list of URLs the set is the set of these URLs,
    and a snapshot written by [save_state] is read back as the set that
    was saved.  The file is left as it was. *)
Theorem load_state_never_raises (st : state) :
  ∃ s st', load_state st = (Ok s, st') ∧ file st' = file st ∧
    (file st = Missing → s = ∅ ∧ st' = st) ∧
    (∀ e, file st = Present (Raise e) → s = ∅) ∧
    (∀ data, file st = Present (Ok data) →
       (∀ members, data ≠ JObj members) → s = ∅) ∧
    (∀ members, file st = Present (Ok (JObj members)) →
       "product_urls" ∉ members.*1 → s = ∅) ∧
    (∀ members us, file st = Present (Ok (JObj members)) →
       members_get members "product_urls" (JArr []) = JArr (JStr <$> us) →
       s = urls (list_to_set us) ∧ st' = st) ∧
    (∀ saved_at l, file st = Present (Ok (snapshot saved_at l)) →
       s = list_to_set l ∧ st' = st).
Proof.
  rewrite load_state_stored.
  destruct (stored_urls (file st)) as [s|e] eqn:Hs; eexists _, _;
    (split; [reflexivity|]); (split; [done|]);
    unfold stored_urls in Hs; split_and!.
  - intros Hf. rewrite Hf in Hs. by injection Hs as <-.
  - intros e Hf. by rewrite Hf in Hs.
  - intros data Hf Hno. rewrite Hf in Hs. by destruct data; naive_solver.
  - intros members Hf Hk. rewrite Hf in Hs. simpl in Hs.
    rewrite members_get_absent in Hs by done. by injection Hs as <-.
  - intros members us Hf Hget. rewrite Hf in Hs. simpl in Hs.
    rewrite Hget in Hs. simpl in Hs. rewrite atoms_of_strs in Hs.
    injection Hs as <-. split; [|done]. unfold urls.
    apply set_eq. intros x. rewrite elem_of_map, !elem_of_list_to_set,
      list_elem_of_fmap. by setoid_rewrite elem_of_list_to_set.
  - intros saved_at l Hf. rewrite Hf in Hs. simpl in Hs.
    rewrite atoms_of_json_of_atom in Hs. by injection Hs as <-.
  - intros Hf. by rewrite Hf in Hs.
  - done.
  - done.
  - done.
  - intros members us Hf Hget. rewrite Hf in Hs. simpl in Hs.
    rewrite Hget in Hs. simpl in Hs. by rewrite atoms_of_strs in Hs.
  - intros saved_at l Hf. rewrite Hf in Hs. simpl in Hs.
    by rewrite atoms_of_json_of_atom in Hs.
Qed.

End StateStore.

(** ** The orchestrator *)

Section Orchestrator.
Context {pkgs : Packages} (env : environment).

Lemma list_to_set_urls (l : list string) :
  list_to_set (PStr <$> l) = urls (list_to_set l).
Proof.
  apply set_eq. intros x. unfold urls.
  rewrite elem_of_map, elem_of_list_to_set, list_elem_of_fmap.
  by setoid_rewrite elem_of_list_to_set.
Qed.

Lemma urls_empty_inv (S : gset string) : urls S = ∅ → S = ∅.
Proof.
  intros HS. apply set_eq. intros u. rewrite <- elem_of_urls, HS.
  by rewrite !elem_of_empty.
Qed.

Lemma size_eqb_0 (s : gset atom) : (size s =? 0) = bool_decide (s = ∅).
Proof.
  case_bool_decide as Hs.
  - subst. by rewrite size_empty.
  - apply Nat.eqb_neq. by intros ?%size_empty_inv%leibniz_equiv.
Qed.

(** Once the stored set is not empty, [load_state] reads it without a
    warning, whatever the trace. *)
Lemma load_state_nonempty st st' prev :
  (load_state st).1 = Ok prev → prev ≠ ∅ → file st' = file st →
  load_state st' = (Ok prev, st').
Proof.
  rewrite !load_state_stored. intros Hl Hne ->.
  destruct (stored_urls (file st)); simpl in Hl; congruence.
Qed.

Lemma main_fetch_fails st e :
  http_get env (CATEGORY_URL env) = Raise e →
  main env st = (Ok 2%Z, add_event (EvLog ERROR "HTTP-Fehler: %s") st).
Proof. intros Hf. unfold main. by rewrite Hf. Qed.

Lemma main_extract_raises st resp_text e :
  http_get env (CATEGORY_URL env) = Ok resp_text →
  extract_product_links resp_text (CATEGORY_URL env) = Raise e →
  main env st = (Raise e, st).
Proof. intros Hf He. unfold main, bind, lift. by rewrite Hf, He. Qed.

(** C9. A steady-state run whose extracted set equals the stored set ends
    with code 0 after one log line: no notification is sent, nothing is
    written, and the state file is as it was. *)
Theorem main_no_change st resp_text links (prev : gset string) :
  http_get env (CATEGORY_URL env) = Ok resp_text →
  extract_product_links resp_text (CATEGORY_URL env) = Ok links →
  (load_state st).1 = Ok (urls prev) → prev ≠ ∅ →
  list_to_set links.*1 = prev →
  main env st =
    (Ok 0%Z,
     add_event (EvLog INFO "Keine neuen Produkte seit letztem Check.") st) ∧
  file (main env st).2 = file st ∧
  trace (main env st).2 =
    trace st ++ [EvLog INFO "Keine neuen Produkte seit letztem Check."] ∧
  exit_code env st = 0%Z.
Proof.
  intros Hf He Hl Hne Hcur.
  assert (urls prev ≠ ∅) as Hne' by (by intros ?%urls_empty_inv).
  assert (main env st =
    (Ok 0%Z,
     add_event (EvLog INFO "Keine neuen Produkte seit letztem Check.") st))
    as Hmain.
  { unfold main. rewrite Hf. unfold bind at 1. unfold lift at 1. rewrite He.
    cbv zeta. rewrite list_to_set_urls, Hcur.
    rewrite bool_decide_eq_false_2 by done.
    unfold bind at 1. unfold ret at 1. unfold bind at 1.
    rewrite (load_state_nonempty st st (urls prev)) by done.
    rewrite size_eqb_0, bool_decide_eq_false_2 by done.
    unfold diff_links, sorted. rewrite difference_diag_L, elements_empty.
    done. }
  rewrite Hmain. unfold exit_code. by rewrite Hmain.
Qed.

(** What [main] does once the page is fetched and the links are
    extracted: the stored set [prev] is loaded, the new URLs are computed,
    and the run goes on as a first run or as a steady-state run. *)
Lemma main_extracted st resp_text links :
  http_get env (CATEGORY_URL env) = Ok resp_text →
  extract_product_links resp_text (CATEGORY_URL env) = Ok links →
  let current := urls (list_to_set links.*1) in
  ∃ st1 prev new,
    file st1 = file st ∧ (∃ evs, trace st1 = trace st ++ evs ∧
                                 Forall (λ ev, ∃ l m, ev = EvLog l m) evs) ∧
    (current ≠ ∅ → prev ≠ ∅ → st1 = st) ∧
    (load_state st).1 = Ok prev ∧
    diff_links prev current = Ok (PStr <$> new) ∧
    (∀ u, u ∈ new ↔ u ∈ (list_to_set links.*1 : gset string) ∧ PStr u ∉ prev) ∧
    main env st =
      if bool_decide (prev = ∅) then
        (log INFO "Erstlauf – speichere (%d Links)." ;;
         save_state env current ;;
         (if bool_decide (NOTIFY_ON_FIRST_RUN env = Some "1")
          then l <- lift (sorted current) ;; notify_new_items env l
          else ret ()) ;;
         ret 0%Z)%M st1
      else
        match new with
        | _ :: _ =>
            (log INFO "Neue Produkte: %d" ;;
             notify_new_items env (PStr <$> new) ;;
             save_state env (prev ∪ list_to_set (PStr <$> new)) ;;
             ret 0%Z)%M st1
        | [] =>
            (Ok 0%Z,
             add_event
               (EvLog INFO "Keine neuen Produkte seit letztem Check.") st1)
        end.
Proof.
  intros Hf He current.
  set (st0 := if bool_decide (current = ∅)
              then add_event
                     (EvLog WARNING "Konnte keine Produkt-Links erkennen.") st
              else st).
  assert (file st0 = file st) as Hf0 by (by unfold st0; case_bool_decide).
  assert (∃ evs, trace st0 = trace st ++ evs ∧
                 Forall (λ ev, ∃ l m, ev = EvLog l m) evs) as (evs0 & Ht0 & Hl0).
  { unfold st0. case_bool_decide.
    - eexists [_]. split; [done|]. apply Forall_singleton. eauto.
    - exists []. by rewrite app_nil_r. }
  pose proof (load_state_stored st0) as Hst0.
  pose proof (load_state_stored st) as Hst. rewrite Hf0 in Hst0.
  set (prev := match stored_urls (file st) with Ok s => s | Raise _ => ∅ end).
  set (st1 := match stored_urls (file st) with
              | Ok _ => st0
              | Raise _ =>
                  add_event (EvLog WARNING "Konnte State nicht laden: %s") st0
              end).
  assert (load_state st0 = (Ok prev, st1)) as Hload
    by (rewrite Hst0; unfold prev, st1; by destruct (stored_urls (file st))).
  destruct (diff_links_urls prev (list_to_set links.*1))
    as (new & Hd & Hnew & _).
  change (urls (list_to_set links.*1)) with current in Hd.
  exists st1, prev, new. split_and!.
  - unfold st1. by destruct (stored_urls (file st)).
  - unfold st1. destruct (stored_urls (file st)); [by eauto|].
    exists (evs0 ++ [EvLog WARNING "Konnte State nicht laden: %s"]).
    simpl. rewrite Ht0, app_assoc. split; [done|].
    apply Forall_app. split; [done|]. apply Forall_singleton. eauto.
  - intros Hc Hp. unfold st1, st0. rewrite bool_decide_eq_false_2 by done.
    unfold prev in Hp. by destruct (stored_urls (file st)).
  - rewrite Hst. unfold prev. by destruct (stored_urls (file st)).
  - done.
  - done.
  - unfold main. rewrite Hf. unfold bind at 1. unfold lift at 1. rewrite He.
    cbv zeta. rewrite list_to_set_urls. fold current.
    unfold bind at 1.
    replace ((if bool_decide (current = ∅)
              then log WARNING "Konnte keine Produkt-Links erkennen."
              else ret ()) st) with (Ok (), st0)
      by (unfold st0; by case_bool_decide).
    unfold bind at 1. rewrite Hload. rewrite size_eqb_0.
    unfold bind at 1. unfold lift at 1. rewrite Hd.
    case_bool_decide; [done|]. by destruct new.
Qed.

(** The notifier never raises and never touches the state file. *)
Lemma send_email_returns subject body st :
  ∃ b evs, send_email env subject body st =
             (Ok b, {| file := file st; trace := trace st ++ evs |}) ∧
           ∀ payload, EvWrite payload ∉ evs.
Proof.
  unfold send_email.
  destruct (negb _).
  - eexists false, [_]. split; [done|].
    intros payload ?%list_elem_of_singleton. done.
  - unfold try_except, bind, lift, emit, log, emit, ret, add_event.
    destruct (smtp_session env) as [[]|e]; simpl.
    + eexists true, [_; _]. rewrite <- app_assoc. split; [done|].
      intros payload Hin. repeat apply elem_of_cons in Hin as [?|Hin]; try done.
      by apply elem_of_nil in Hin.
    + eexists false, [_]. split; [done|].
      intros payload ?%list_elem_of_singleton. done.
Qed.

Lemma notify_new_items_returns l st :
  ∃ evs, notify_new_items env l st =
           (Ok (), {| file := file st; trace := trace st ++ evs |}) ∧
         ∀ payload, EvWrite payload ∉ evs.
Proof.
  unfold notify_new_items. destruct l as [|a l].
  - eexists [_]. split; [done|].
    intros payload ?%list_elem_of_singleton. done.
  - unfold bind.
    destruct (send_email_returns mail_subject (mail_body (a :: l)) st)
      as (b & evs & -> & Hevs). by exists evs.
Qed.

(** With the mail settings complete and a session that succeeds, one
    message listing the URLs is sent. *)
Lemma notify_new_items_sent l st :
  l ≠ [] → mail_configured env → smtp_session env = Ok () →
  notify_new_items env l st =
    (Ok (), {| file := file st;
               trace := trace st ++
                 [EvMail mail_subject (mail_body l);
                  EvLog INFO "E-Mail versendet an %s"] |}).
Proof.
  intros Hl (H1 & H2 & H3 & H4 & H5) Hs.
  unfold notify_new_items. destruct l as [|a l]; [done|].
  unfold bind, send_email.
  apply String.eqb_neq in H1, H2, H3, H4, H5.
  rewrite H1, H2, H3, H4, H5. simpl.
  unfold try_except, bind, lift, emit, log, emit, ret, add_event.
  rewrite Hs. simpl. by rewrite <- app_assoc.
Qed.

Lemma write_json_written payload st :
  fs_write env = Written →
  write_json env payload st =
    (Ok (), {| file := Present (Ok payload);
               trace := trace st ++ [EvWrite payload] |}).
Proof. intros Hw. unfold write_json. by rewrite Hw. Qed.

(** A set of strings is saved as the snapshot of its ascending list. *)
Lemma save_state_strs (S : gset atom) st :
  set_Forall is_url S →
  ∃ l, (∀ u, u ∈ l ↔ PStr u ∈ S) ∧ NoDup l ∧ StronglySorted String.le l ∧
       save_state env S st =
         write_json env (snapshot (utcnow env) (PStr <$> l)) st.
Proof.
  intros (l & Hl & Hin & Hnd & Hs)%sorted_urls.
  exists l. split_and!; [done..|].
  unfold save_state, bind, lift. by rewrite Hl.
Qed.

Lemma save_state_urls (S : gset string) st :
  ∃ l, (∀ u, u ∈ l ↔ u ∈ S) ∧ NoDup l ∧ StronglySorted String.le l ∧
       save_state env (urls S) st =
         write_json env (snapshot (utcnow env) (PStr <$> l)) st.
Proof.
  destruct (save_state_strs (urls S) st (urls_is_url S))
    as (l & Hin & Hnd & Hs & Hsave).
  exists l. split_and!; [|done..].
  intros u. by rewrite Hin, elem_of_urls.
Qed.

Lemma urls_union (S T : gset string) : urls (S ∪ T) = urls S ∪ urls T.
Proof. unfold urls. by rewrite set_map_union_L. Qed.

(** After a successful fetch and extraction, [main] returns 0 unless
    [save_state] raises. *)
Lemma main_extracted_outcome st resp_text links :
  http_get env (CATEGORY_URL env) = Ok resp_text →
  extract_product_links resp_text (CATEGORY_URL env) = Ok links →
  (main env st).1 = Ok 0%Z ∨
  ∃ e S st', (save_state env S st').1 = Raise e ∧ (main env st).1 = Raise e.
Proof.
  intros Hf He.
  destruct (main_extracted st resp_text links Hf He)
    as (st1 & prev & new & _ & _ & _ & _ & _ & _ & ->).
  set (current := urls (list_to_set links.*1)).
  case_bool_decide.
  - destruct (save_state env current (add_event
        (EvLog INFO "Erstlauf – speichere (%d Links).") st1))
      as [[[]|e] st3] eqn:Hsave.
    + left. unfold bind at 1. unfold log, emit at 1. unfold bind at 1.
      rewrite Hsave. unfold bind at 1. case_bool_decide; [|done].
      destruct (sorted_urls current (urls_is_url _)) as (l & -> & _).
      unfold bind at 1. unfold lift at 1.
      destruct (notify_new_items_returns (PStr <$> l) st3) as (evs & -> & _).
      done.
    + right. exists e, current, (add_event
        (EvLog INFO "Erstlauf – speichere (%d Links).") st1).
      split; [by rewrite Hsave|].
      unfold bind at 1. unfold log, emit at 1. unfold bind at 1.
      by rewrite Hsave.
  - destruct new as [|u new]; [by left|].
    destruct (notify_new_items_returns (PStr <$> u :: new)
                (add_event (EvLog INFO "Neue Produkte: %d") st1))
      as (evs & Hn & _).
    destruct (save_state env (prev ∪ list_to_set (PStr <$> u :: new))
                {| file := file (add_event (EvLog INFO "Neue Produkte: %d") st1);
                   trace := trace (add_event (EvLog INFO "Neue Produkte: %d") st1)
                            ++ evs |})
      as [[[]|e] st3] eqn:Hsave.
    + left. unfold bind at 1. unfold log, emit at 1. unfold bind at 1.
      rewrite Hn. unfold bind at 1. by rewrite Hsave.
    + right. eexists e, _, _. split; [by rewrite Hsave|].
      unfold bind at 1. unfold log, emit at 1. unfold bind at 1.
      rewrite Hn. unfold bind at 1. by rewrite Hsave.
Qed.

(** With the stored elements all strings and a write that succeeds,
    [save_state] does not raise and the run ends with code 0. *)
Lemma main_extracted_returns st resp_text links prev :
  http_get env (CATEGORY_URL env) = Ok resp_text →
  extract_product_links resp_text (CATEGORY_URL env) = Ok links →
  (load_state st).1 = Ok prev → set_Forall is_url prev →
  fs_write env = Written →
  (main env st).1 = Ok 0%Z.
Proof.
  intros Hf He Hl Hp Hw.
  destruct (main_extracted_outcome st resp_text links Hf He)
    as [?|(e & S & st' & Hsave & Hm)]; [done|].
  exfalso.
  destruct (main_extracted st resp_text links Hf He)
    as (st1 & prev' & new & _ & _ & _ & Hl' & _ & _ & Hmain).
  assert (prev' = prev) as -> by congruence.
  rewrite Hmain in Hm. clear Hmain Hsave.
  assert (∀ (S : gset atom) st', set_Forall is_url S →
            ∃ st'', save_state env S st' = (Ok (), st'')) as Hsaves.
  { intros S0 st0 HS. destruct (save_state_strs S0 st0 HS) as (l & _ & _ & _ & ->).
    rewrite write_json_written by done. eauto. }
  case_bool_decide.
  - unfold bind at 1 in Hm. unfold log, emit at 1 in Hm.
    unfold bind at 1 in Hm.
    destruct (Hsaves (urls (list_to_set links.*1))
                (add_event (EvLog INFO "Erstlauf – speichere (%d Links).") st1)
                (urls_is_url _)) as (st2 & Hs).
    rewrite Hs in Hm. unfold bind at 1 in Hm.
    case_bool_decide; [|done].
    destruct (sorted_urls (urls (list_to_set links.*1)) (urls_is_url _))
      as (l' & Hl2 & _).
    unfold bind at 1 in Hm. unfold lift at 1 in Hm. rewrite Hl2 in Hm.
    by destruct (notify_new_items_returns (PStr <$> l') st2)
      as (evs & Hn & _); rewrite Hn in Hm.
  - destruct new as [|u new]; [done|].
    unfold bind at 1 in Hm. unfold log, emit at 1 in Hm.
    unfold bind at 1 in Hm.
    destruct (notify_new_items_returns (PStr <$> u :: new)
                (add_event (EvLog INFO "Neue Produkte: %d") st1))
      as (evs & Hn & _).
    rewrite Hn in Hm. unfold bind at 1 in Hm.
    edestruct (Hsaves (prev ∪ list_to_set (PStr <$> u :: new)))
      as (st2 & Hs); [|rewrite Hs in Hm; done].
    intros x [Hx|Hx]%elem_of_union; [by apply Hp|].
    apply elem_of_list_to_set, list_elem_of_fmap in Hx as (? & -> & _).
    by eexists.
Qed.

(** C6, as the code has it.  The exit code is 2 exactly when the fetch
    fails, and [main] returns no code but 0 and 2.  After a successful
    fetch the run ends with code 0 whenever the extraction raises nothing
    and the state file is rewritten without an error: whatever the links
    (none included), the mail settings, the outcome of the mail session
    and the state file (a file that cannot be read or parsed loads as the
    empty set).  Nothing catches an exception of the link extraction or of
    [save_state]: it leaves [main], and the process ends with status 1;
    so does every run that comes to save (a first run, or a run with a new
    URL) while the state file cannot be written. *)
Theorem main_exit_code st :
  (exit_code env st = 2%Z ↔
   ∃ e, http_get env (CATEGORY_URL env) = Raise e) ∧
  (∀ code, (main env st).1 = Ok code → code = 0%Z ∨ code = 2%Z) ∧
  (∀ resp_text links prev,
     http_get env (CATEGORY_URL env) = Ok resp_text →
     extract_product_links resp_text (CATEGORY_URL env) = Ok links →
     (load_state st).1 = Ok prev → set_Forall is_url prev →
     fs_write env = Written →
     (main env st).1 = Ok 0%Z ∧ exit_code env st = 0%Z) ∧
  (∀ resp_text e,
     http_get env (CATEGORY_URL env) = Ok resp_text →
     (main env st).1 = Raise e →
     exit_code env st = 1%Z ∧
     (extract_product_links resp_text (CATEGORY_URL env) = Raise e ∨
      ∃ S st', (save_state env S st').1 = Raise e)) ∧
  (∀ resp_text links prev,
     http_get env (CATEGORY_URL env) = Ok resp_text →
     extract_product_links resp_text (CATEGORY_URL env) = Ok links →
     (load_state st).1 = Ok prev →
     prev = ∅ ∨ (∃ u, u ∈ links.*1 ∧ PStr u ∉ prev) →
     fs_write env ≠ Written →
     ∃ e, (main env st).1 = Raise e ∧ exit_code env st = 1%Z).
Proof.
  assert (∀ resp_text,
    http_get env (CATEGORY_URL env) = Ok resp_text →
    (main env st).1 = Ok 0%Z ∨
    ∃ e, (main env st).1 = Raise e ∧
         (extract_product_links resp_text (CATEGORY_URL env) = Raise e ∨
          ∃ S st', (save_state env S st').1 = Raise e)) as Hcases.
  { intros resp_text Hf.
    destruct (extract_product_links resp_text (CATEGORY_URL env))
      as [links|e] eqn:He.
    - destruct (main_extracted_outcome st resp_text links Hf He)
        as [?|(e & S & st' & ? & ?)]; [by left|].
      right. exists e. eauto.
    - right. exists e. rewrite (main_extract_raises st resp_text e Hf He).
      eauto. }
  split_and!.
  - unfold exit_code. split.
    + destruct (http_get env (CATEGORY_URL env)) as [resp_text|e] eqn:Hf;
        [|by eauto].
      destruct (Hcases resp_text eq_refl) as [->|(e & -> & _)]; done.
    + intros [e Hf]. by rewrite (main_fetch_fails st e Hf).
  - intros code Hc.
    destruct (http_get env (CATEGORY_URL env)) as [resp_text|e] eqn:Hf.
    + destruct (Hcases resp_text eq_refl) as [H0|(e & H0 & _)];
        rewrite H0 in Hc; [|done]. left. congruence.
    + rewrite (main_fetch_fails st e Hf) in Hc. right. simpl in Hc.
      congruence.
  - intros resp_text links prev Hf He Hl Hp Hw.
    pose proof (main_extracted_returns st resp_text links prev Hf He Hl Hp Hw)
      as Hm.
    unfold exit_code. by rewrite Hm.
  - intros resp_text e Hf Hm. unfold exit_code. rewrite Hm. split; [done|].
    destruct (Hcases resp_text Hf) as [H0|(e' & H0 & Hwhy)]; [congruence|].
    assert (e' = e) as -> by congruence. done.
  - intros resp_text links prev Hf He Hl Hattempt Hw.
    destruct (main_extracted st resp_text links Hf He)
      as (st1 & prev' & new & _ & _ & _ & Hl' & _ & Hnew & Hmain).
    assert (prev' = prev) as -> by congruence.
    assert (∀ S st', ∃ e st'', save_state env S st' = (Raise e, st''))
      as Hfail.
    { intros S st'. unfold save_state, bind, lift, write_json.
      destruct (sorted S); [|by eauto].
      destruct (fs_write env); [done|by eauto..]. }
    assert (∃ e, (main env st).1 = Raise e) as [e Hraise].
    { rewrite Hmain. case_bool_decide as Hp.
      - unfold bind at 1. unfold log, emit at 1. unfold bind at 1.
        destruct (Hfail (urls (list_to_set links.*1))
                    (add_event
                       (EvLog INFO "Erstlauf – speichere (%d Links).") st1))
          as (e & st'' & ->). eauto.
      - destruct Hattempt as [->|(u & Hu & Hnu)]; [done|].
        destruct new as [|u0 new].
        { exfalso. apply (elem_of_nil u), Hnew.
          split; [by apply elem_of_list_to_set|done]. }
        unfold bind at 1. unfold log, emit at 1. unfold bind at 1.
        destruct (notify_new_items_returns (PStr <$> u0 :: new)
                    (add_event (EvLog INFO "Neue Produkte: %d") st1))
          as (evs & -> & _).
        unfold bind at 1.
        destruct (Hfail (prev ∪ list_to_set (PStr <$> u0 :: new))
                    {| file := file (add_event
                                 (EvLog INFO "Neue Produkte: %d") st1);
                       trace := trace (add_event
                                 (EvLog INFO "Neue Produkte: %d") st1)
                                ++ evs |})
          as (e & st'' & ->). eauto. }
    exists e. split; [done|]. unfold exit_code. by rewrite Hraise.
Qed.

End Orchestrator.

(** ** The worked examples, run *)

Section Runs.
Import Example.

(** A state file in the monitor's own format loads as the set it lists. *)
Lemma load_state_file_of l st :
  file st = file_of l → (load_state st).1 = Ok (urls (list_to_set l)).
Proof.
  intros Hf. rewrite load_state_stored, Hf. unfold file_of, stored_urls.
  simpl. rewrite atoms_of_strs. simpl. by rewrite list_to_set_urls.
Qed.

(** The steady-state scenario: stored A and B, listed B and C.  One
    message lists C alone and the file then holds A, B and C. *)
Example run_steady_state :
  main env_ok st_AB =
    (Ok 0%Z,
     {| file := Present (Ok (snapshot (utcnow env_ok)
                               (PStr <$> [A; B; C])));
        trace :=
          [EvLog INFO "Neue Produkte: %d";
           EvMail mail_subject (mail_body [PStr C]);
           EvLog INFO "E-Mail versendet an %s";
           EvWrite (snapshot (utcnow env_ok) (PStr <$> [A; B; C]))] |}).
Proof. by vm_compute. Qed.

(** The no-change scenario: stored and listed B and C. *)
Example run_no_change :
  main env_ok st_BC =
    (Ok 0%Z,
     {| file := file st_BC;
        trace := [EvLog INFO "Keine neuen Produkte seit letztem Check."] |}).
Proof. by vm_compute. Qed.

(** A first run: nothing stored, B and C saved, no message. *)
Example run_first :
  main env_ok st_fresh =
    (Ok 0%Z,
     {| file := Present (Ok (snapshot (utcnow env_ok) (PStr <$> [B; C])));
        trace :=
          [EvLog INFO "Erstlauf – speichere (%d Links).";
           EvWrite (snapshot (utcnow env_ok) (PStr <$> [B; C]))] |}).
Proof. by vm_compute. Qed.

Lemma main_no_change_witness :
  main env_ok st_BC =
    (Ok 0%Z,
     add_event (EvLog INFO "Keine neuen Produkte seit letztem Check.") st_BC) ∧
  file (main env_ok st_BC).2 = file st_BC ∧
  trace (main env_ok st_BC).2 =
    trace st_BC ++ [EvLog INFO "Keine neuen Produkte seit letztem Check."] ∧
  exit_code env_ok st_BC = 0%Z.
Proof.
  apply (main_no_change env_ok st_BC page_BC [(B, "Beta"); (C, C)]
           (list_to_set [B; C])).
  - reflexivity.
  - reflexivity.
  - by apply load_state_file_of.
  - apply (non_empty_inhabited_L B). apply elem_of_list_to_set.
    by apply list_elem_of_here.
  - reflexivity.
Defined.

Lemma main_exit_code_witness :
  (main env_degraded st_corrupt).1 = Ok 0%Z ∧
  exit_code env_degraded st_corrupt = 0%Z.
Proof.
  apply (proj1 (proj2 (proj2 (main_exit_code env_degraded st_corrupt)))
           page_BC [(B, "Beta"); (C, C)] ∅);
    [reflexivity | reflexivity | reflexivity
    | intros x Hx; by apply elem_of_empty in Hx | reflexivity].
Defined.

(** C6 as stated fails when the state file cannot be written: the fetch
    succeeds, [save_state] raises, nothing catches the exception, and the
    process ends with status 1, which is neither 0 nor 2. *)
Lemma main_save_failure_status :
  http_get env_read_only (CATEGORY_URL env_read_only) = Ok page_BC ∧
  (main env_read_only st_fresh).1 = Raise OSError ∧
  exit_code env_read_only st_fresh = 1%Z ∧
  exit_code env_read_only st_fresh ≠ 0%Z ∧
  exit_code env_read_only st_fresh ≠ 2%Z.
Proof. by vm_compute. Qed.

End Runs.

(** ** Further properties of the extraction *)

Section ExtractionMore.
Context {pkgs : Packages}.

(** The loop keeps what it has and appends. *)
Lemma extract_loop_extends base anchors links seen out :
  extract_loop base anchors links seen = Ok out →
  ∃ more, out = links ++ more.
Proof.
  revert links seen. induction anchors as [|a rest IH]; intros links seen.
  - simpl. intros [= <-]. exists []. by rewrite app_nil_r.
  - simpl. destruct (normalize_url base (href a)) as [[u|]|]; simpl;
      [|by apply IH|done].
    destruct (String.eqb u ""); [by apply IH|].
    destruct (urlparse u) as [p|]; [simpl|done].
    destruct (looks_like_product (path p)); [|by apply IH].
    case_bool_decide; [by apply IH|].
    intros (more & ->)%IH. exists ((u, title_of a u) :: more).
    by rewrite <- app_assoc.
Qed.

Lemma extract_loop_nodup base anchors links seen out :
  extract_loop base anchors links seen = Ok out →
  seen = list_to_set links.*1 → NoDup links.*1 → NoDup out.*1.
Proof.
  revert links seen. induction anchors as [|a rest IH]; intros links seen.
  - simpl. by intros [= <-].
  - simpl. destruct (normalize_url base (href a)) as [[u|]|]; simpl;
      [|by apply IH|done].
    destruct (String.eqb u ""); [by apply IH|].
    destruct (urlparse u) as [p|]; [simpl|done].
    destruct (looks_like_product (path p)); [|by apply IH].
    case_bool_decide as Hu; [by apply IH|].
    intros Hout -> Hnd. apply (IH _ _ Hout).
    + rewrite fmap_app, list_to_set_app_L. simpl.
      by rewrite (right_id_L ∅ (∪)), (comm_L (∪)).
    + rewrite fmap_app. apply NoDup_app. split_and!; [done| |].
      * intros x Hx ->%list_elem_of_singleton. apply Hu.
        by apply elem_of_list_to_set.
      * apply NoDup_singleton.
Qed.

(** An entry that the loop adds comes from the first anchor that
    normalises to its URL. *)
Lemma extract_loop_origin base anchors links seen out u t :
  extract_loop base anchors links seen = Ok out →
  (u, t) ∈ out →
  (u, t) ∈ links ∨
  ((u ∉ seen) ∧
   ∃ l1 a l2, anchors = l1 ++ a :: l2 ∧ accepts base a u ∧
              t = title_of a u ∧
              ∀ a', a' ∈ l1 → normalize_url base (href a') ≠ Ok (Some u)).
Proof.
  revert links seen. induction anchors as [|a rest IH]; intros links seen.
  - simpl. intros [= <-]. by left.
  - simpl. destruct (normalize_url base (href a)) as [[u0|]|] eqn:Hn; simpl;
      [| |done].
    + destruct (String.eqb_spec u0 "") as [->|Hne].
      { intros Hout Hin.
        destruct (IH _ _ Hout Hin)
          as [?|(Hs & l1 & a1 & l2 & -> & Hacc & Ht & Hfirst)]; [by left|].
        right. split; [done|]. exists (a :: l1), a1, l2.
        split_and!; [done..|].
        intros a' [->|?]%elem_of_cons; [|by auto].
        rewrite Hn. intros [= <-]. by destruct Hacc as (_ & ? & _). }
      destruct (urlparse u0) as [p|] eqn:Hp; [simpl|done].
      destruct (looks_like_product (path p)) eqn:Hlook.
      * case_bool_decide as Hseen.
        { intros Hout Hin.
          destruct (IH _ _ Hout Hin)
            as [?|(Hs & l1 & a1 & l2 & -> & Hacc & Ht & Hfirst)]; [by left|].
          right. split; [done|]. exists (a :: l1), a1, l2.
          split_and!; [done..|].
          intros a' [->|?]%elem_of_cons; [|by auto].
          rewrite Hn. intros [= <-]. done. }
        intros Hout Hin.
        destruct (IH _ _ Hout Hin)
          as [Hl|(Hs & l1 & a1 & l2 & -> & Hacc & Ht & Hfirst)].
        -- apply elem_of_app in Hl as [?|Hl]; [by left|].
           apply list_elem_of_singleton in Hl as [= -> ->].
           right. split; [done|]. exists [], a, rest.
           split_and!; [done| |done|].
           ++ split_and!; [done..|]. eauto.
           ++ by intros a' ?%elem_of_nil.
        -- right. split; [set_solver|]. exists (a :: l1), a1, l2.
           split_and!; [done..|].
           intros a' [->|?]%elem_of_cons; [|by auto].
           rewrite Hn. intros [= <-]. set_solver.
      * intros Hout Hin.
        destruct (IH _ _ Hout Hin)
          as [?|(Hs & l1 & a1 & l2 & -> & Hacc & Ht & Hfirst)]; [by left|].
        right. split; [done|]. exists (a :: l1), a1, l2.
        split_and!; [done..|].
        intros a' [->|?]%elem_of_cons; [|by auto].
        rewrite Hn. intros [= <-].
        destruct Hacc as (_ & _ & p' & Hp' & Hl'). congruence.
    + intros Hout Hin.
      destruct (IH _ _ Hout Hin)
        as [?|(Hs & l1 & a1 & l2 & -> & Hacc & Ht & Hfirst)]; [by left|].
      right. split; [done|]. exists (a :: l1), a1, l2.
      split_and!; [done..|].
      intros a' [->|?]%elem_of_cons; [|by auto]. by rewrite Hn.
Qed.

(** An accepted anchor has its URL in the result. *)
Lemma extract_loop_complete base anchors links seen out a u :
  extract_loop base anchors links seen = Ok out →
  seen = list_to_set links.*1 →
  a ∈ anchors → accepts base a u → u ∈ out.*1.
Proof.
  revert links seen. induction anchors as [|a0 rest IH]; intros links seen;
    [by intros _ _ ?%elem_of_nil|].
  intros Hout Hseen Hin Hacc.
  apply elem_of_cons in Hin as [<-|Hin].
  - destruct Hacc as (Hn & Hne & p & Hp & Hl). simpl in Hout.
    rewrite Hn in Hout. simpl in Hout.
    destruct (String.eqb_spec u ""); [done|].
    rewrite Hp in Hout. simpl in Hout. rewrite Hl in Hout.
    case_bool_decide as Hu.
    + apply extract_loop_extends in Hout as (more & ->).
      rewrite fmap_app. apply elem_of_app. left.
      rewrite Hseen in Hu. by apply elem_of_list_to_set in Hu.
    + apply extract_loop_extends in Hout as (more & ->).
      rewrite !fmap_app. apply elem_of_app. left. apply elem_of_app. right.
      by apply list_elem_of_singleton.
  - simpl in Hout.
    destruct (normalize_url base (href a0)) as [[u0|]|]; simpl in Hout;
      [|by eapply IH|done].
    destruct (String.eqb u0 ""); [by eapply IH|].
    destruct (urlparse u0) as [p|]; [simpl in Hout|done].
    destruct (looks_like_product (path p)); [|by eapply IH].
    case_bool_decide; [by eapply IH|].
    eapply IH; [done| |done..].
    rewrite Hseen, fmap_app, list_to_set_app_L. simpl.
    by rewrite (right_id_L ∅ (∪)), (comm_L (∪)).
Qed.

(** X1. No URL occurs twice in the extraction result. *)
Theorem extract_product_links_nodup html base links :
  extract_product_links html base = Ok links → NoDup links.*1.
Proof.
  unfold extract_product_links.
  destruct (find_all_a_href html) as [anchors|]; [simpl|done].
  intros Hout. apply (extract_loop_nodup _ _ _ _ _ Hout); [done|].
  apply NoDup_nil_2.
Qed.

(** X2. Every entry of the result comes from an anchor of the page: the
    first anchor whose [href] normalises to the entry's URL.  That URL is
    not empty and has a product-like path, and the entry's title is the
    trimmed text of that anchor, or the trimmed URL when the text is
    empty. *)
Theorem extract_product_links_first_anchor html base anchors links u t :
  find_all_a_href html = Ok anchors →
  extract_product_links html base = Ok links →
  (u, t) ∈ links →
  ∃ l1 a l2, anchors = l1 ++ a :: l2 ∧ accepts base a u ∧
             t = title_of a u ∧
             ∀ a', a' ∈ l1 → normalize_url base (href a') ≠ Ok (Some u).
Proof.
  unfold extract_product_links. intros ->. simpl. intros Hout Hin.
  destruct (extract_loop_origin _ _ _ _ _ _ _ Hout Hin) as [?%elem_of_nil|[_ ?]];
    done.
Qed.

(** X3. Every anchor whose [href] normalises to a non-empty URL with a
    product-like path has that URL in the result. *)
Theorem extract_product_links_complete html base anchors links a u :
  find_all_a_href html = Ok anchors →
  extract_product_links html base = Ok links →
  a ∈ anchors → accepts base a u → u ∈ links.*1.
Proof.
  unfold extract_product_links. intros ->. simpl. intros Hout Hin Hacc.
  by eapply extract_loop_complete.
Qed.

End ExtractionMore.

(** ** Further properties of the classifier *)

Section ClassifierMore.

Lemma lower_app s1 s2 : Py.lower (s1 +:+ s2) = Py.lower s1 +:+ Py.lower s2.
Proof. induction s1 as [|c s1 IH]; [done|]. simpl. by rewrite IH. Qed.

(** Reading a literal without regard to case succeeds exactly when the
    folded literal starts the folded text. *)
Lemma eat_prefix pat s :
  is_Some (Re.eat true pat s) ↔
  String.prefix (Py.lower pat) (Py.lower s) = true.
Proof.
  revert s. induction pat as [|a pat IH]; intros s; simpl.
  - rewrite prefix_nil. split; [done|]. intros _. by eexists.
  - destruct s as [|b s]; simpl.
    { split; [by intros [? [=]]|done]. }
    unfold Re.char_eq.
    destruct (ascii_dec (Py.lower_char a) (Py.lower_char b)) as [->|Hne].
    + rewrite Ascii.eqb_refl. apply IH.
    + apply Ascii.eqb_neq in Hne. rewrite Hne.
      split; [by intros [? [=]]|done].
Qed.

Lemma eat_app pat1 pat2 s :
  Re.eat true (pat1 +:+ pat2) s =
  match Re.eat true pat1 s with
  | Some rest => Re.eat true pat2 rest
  | None => None
  end.
Proof.
  revert s. induction pat1 as [|a pat1 IH]; intros s; [done|].
  destruct s as [|b s]; [done|]. simpl.
  destruct (Ascii.eqb _ _); [apply IH | done].
Qed.

Lemma prefix_bool s1 s2 :
  String.prefix s1 s2 = true ∨ String.prefix s1 s2 = false.
Proof. destruct (String.prefix s1 s2); auto. Qed.

Lemma matches_at_lit pat s :
  Re.matches_at (Re.compile (Re.Lit pat) true) s =
  String.prefix (Py.lower pat) (Py.lower s).
Proof.
  unfold Re.matches_at. simpl.
  pose proof (eat_prefix pat s) as Hp.
  destruct (Re.eat true pat s) as [rest|].
  - symmetry. apply Hp. by eexists.
  - destruct (String.prefix _ _); [|done].
    by destruct (proj2 Hp eq_refl).
Qed.

Lemma matches_at_lit_alt pat alt1 alt2 s :
  Re.matches_at
    (Re.compile (Re.Cat (Re.Lit pat) (Re.Alt (Re.Lit alt1) (Re.Lit alt2)))
       true) s =
  String.prefix (Py.lower (pat +:+ alt1)) (Py.lower s)
  || String.prefix (Py.lower (pat +:+ alt2)) (Py.lower s).
Proof.
  rewrite <- !matches_at_lit. unfold Re.matches_at. simpl.
  rewrite !eat_app.
  destruct (Re.eat true pat s) as [rest|]; [simpl|done].
  rewrite app_nil_r.
  by destruct (Re.eat true alt1 rest), (Re.eat true alt2 rest).
Qed.

Lemma search_lit pat s :
  Re.search (Re.compile (Re.Lit pat) true) s =
  Py.str_in (Py.lower pat) (Py.lower s).
Proof.
  induction s as [|c s IH]; cbn [Re.search Py.str_in Py.lower].
  - by rewrite (matches_at_lit pat "").
  - by rewrite (matches_at_lit pat (String c s)), IH.
Qed.

Lemma search_lit_alt pat alt1 alt2 s :
  Re.search
    (Re.compile (Re.Cat (Re.Lit pat) (Re.Alt (Re.Lit alt1) (Re.Lit alt2)))
       true) s =
  Py.str_in (Py.lower (pat +:+ alt1)) (Py.lower s)
  || Py.str_in (Py.lower (pat +:+ alt2)) (Py.lower s).
Proof.
  induction s as [|c s IH]; cbn [Re.search Py.str_in Py.lower].
  - rewrite (matches_at_lit_alt pat alt1 alt2 "").
    cbn [Py.lower]. by rewrite !orb_false_r.
  - rewrite (matches_at_lit_alt pat alt1 alt2 (String c s)), IH.
    cbn [Py.lower].
    repeat match goal with |- context [String.prefix ?a ?b] =>
      destruct (String.prefix a b) end;
    repeat match goal with |- context [Py.str_in ?a ?b] =>
      destruct (Py.str_in a b) end; done.
Qed.

(** On the code points of the model (below 256), the accept patterns are
    four tests on the folded path.  (Beyond these code points
    [re.IGNORECASE] also matches U+017F with [s], U+0130 and U+0131 with
    [i]: there the patterns accept more than the four tests.) *)
Lemma matches_accept_pattern_folded path :
  matches_accept_pattern path =
  Py.str_in "/mtg-" (Py.lower path)
  || Py.str_in "/magic-the-gathering" (Py.lower path)
  || (Py.str_in "booster-box" (Py.lower path)
      || Py.str_in "booster-display" (Py.lower path)).
Proof.
  unfold matches_accept_pattern, PRODUCT_PATTERNS. simpl existsb.
  rewrite !search_lit, search_lit_alt, orb_false_r, orb_assoc. done.
Qed.

(** X4. A path that holds [/mtg-], [/magic-the-gathering], [booster-box]
    or [booster-display], in any mix of upper and lower case of the
    letters A-Z, matches an accept pattern; it is classified product-like
    unless it holds a reject marker. *)
Theorem accept_substring_accepted path :
  Py.str_in "/mtg-" (Py.lower path)
  || Py.str_in "/magic-the-gathering" (Py.lower path)
  || (Py.str_in "booster-box" (Py.lower path)
      || Py.str_in "booster-display" (Py.lower path)) = true →
  matches_accept_pattern path = true ∧
  (has_reject_marker path = false → looks_like_product path = true).
Proof.
  rewrite <- matches_accept_pattern_folded. intros Ha. split; [done|].
  intros Hr. rewrite looks_like_product_chain. simpl. by rewrite Hr, Ha.
Qed.


End ClassifierMore.

(** ** Further properties of the differ and of the state store *)

Section StoreMore.
Context (env : environment).

(** X5. Once the new URLs are added to the old set, nothing is new any
    more: the differ then returns the empty list. *)
Theorem diff_links_after_union (old : gset atom) (new : gset string) :
  ∃ l, diff_links old (urls new) = Ok (PStr <$> l) ∧
       diff_links (old ∪ list_to_set (PStr <$> l)) (urls new) = Ok [].
Proof.
  destruct (diff_links_urls old new) as (l & Hl & Hin & _).
  exists l. split; [done|]. unfold diff_links, sorted.
  assert (urls new ∖ (old ∪ list_to_set (PStr <$> l)) = ∅) as ->; [|done].
  apply set_eq. intros x. rewrite elem_of_difference, elem_of_union,
    elem_of_list_to_set, elem_of_empty.
  split; [|done]. intros [Hx Hn]. apply elem_of_map in Hx as (u & -> & Hu).
  apply Hn. destruct (decide (PStr u ∈ old)); [by left|right].
  apply list_elem_of_fmap. exists u. split; [done|]. by apply Hin.
Qed.

Lemma mapM_as_int l zs : mapM as_int l = Some zs ↔ l = PInt <$> zs.
Proof.
  rewrite mapM_Some. split.
  - induction 1 as [|[] z l zs Hx _ IH]; simplify_eq/=; by f_equal.
  - intros ->. induction zs; constructor; done.
Qed.

(** [sorted] rearranges: it neither drops nor adds an element. *)
Lemma sorted_list_Permutation l l' : sorted_list l = Ok l' → l' ≡ₚ l.
Proof.
  unfold sorted_list.
  destruct (mapM as_str l) as [ss|] eqn:Hs.
  { apply mapM_as_str in Hs as ->. intros [= <-].
    by rewrite merge_sort_Permutation. }
  destruct (mapM as_int l) as [zs|] eqn:Hz.
  { apply mapM_as_int in Hz as ->. intros [= <-].
    by rewrite merge_sort_Permutation. }
  destruct l as [|x [|y l]]; [done| |done]. by intros [= <-].
Qed.

Lemma sorted_list_to_set (S : gset atom) l :
  sorted S = Ok l → list_to_set l = S.
Proof.
  intros Hl%sorted_list_Permutation. apply set_eq. intros x.
  by rewrite elem_of_list_to_set, Hl, elem_of_elements.
Qed.

(** What [save_state] does, by the outcome of the sort and of the write. *)
Lemma save_state_cases (S : gset atom) st :
  (∃ l, sorted S = Ok l ∧ fs_write env = Written ∧
        save_state env S st =
          (Ok (), {| file := Present (Ok (snapshot (utcnow env) l));
                     trace := trace st
                              ++ [EvWrite (snapshot (utcnow env) l)] |})) ∨
  (∃ e, save_state env S st = (Raise e, st) ∧
        (sorted S = Raise e ∨ (fs_write env = OpenFails ∧ e = OSError))) ∨
  (fs_write env = DumpFails ∧
   save_state env S st =
     (Raise OSError,
      {| file := Present (Raise JSONDecodeError); trace := trace st |})).
Proof.
  unfold save_state, bind, lift, write_json.
  destruct (sorted S) as [l|e]; [|right; left; eauto].
  destruct (fs_write env).
  - left. eauto.
  - right. left. eauto.
  - by right; right.
Qed.

Lemma stored_urls_snapshot saved_at l :
  stored_urls (Present (Ok (snapshot saved_at l))) = Ok (list_to_set l).
Proof.
  unfold stored_urls, snapshot. simpl. by rewrite atoms_of_json_of_atom.
Qed.

(** X6. Round trip: when [save_state] returns, [load_state] reads back
    exactly the set that was saved, without a warning. *)
Theorem save_load_roundtrip (S : gset atom) st :
  (save_state env S st).1 = Ok () →
  load_state (save_state env S st).2 = (Ok S, (save_state env S st).2).
Proof.
  destruct (save_state_cases S st)
    as [(l & Hl & _ & ->)|[(e & -> & _)|[_ ->]]]; [|done..].
  intros _. rewrite load_state_stored. cbn [snd file].
  rewrite stored_urls_snapshot. by rewrite (sorted_list_to_set S l Hl).
Qed.

(** X7. A set that holds a string together with an element that is not a
    string cannot be sorted: [save_state] raises [TypeError] before the
    file is opened, and the state file is as before. *)
Theorem save_state_mixed_set (S : gset atom) st u a :
  PStr u ∈ S → a ∈ S → ¬ is_url a →
  save_state env S st = (Raise TypeError, st).
Proof.
  intros Hu Ha Hna. unfold save_state, bind, lift.
  assert (sorted S = Raise TypeError) as ->; [|done].
  unfold sorted, sorted_list.
  apply elem_of_elements in Hu, Ha.
  destruct (mapM as_str (elements S)) as [ss|] eqn:Hs.
  { apply mapM_as_str in Hs. rewrite Hs in Ha.
    apply list_elem_of_fmap in Ha as (s & -> & _). destruct Hna. by eexists. }
  destruct (mapM as_int (elements S)) as [zs|] eqn:Hz.
  { apply mapM_as_int in Hz. rewrite Hz in Hu.
    by apply list_elem_of_fmap in Hu as (z & [=] & _). }
  destruct (elements S) as [|x [|y l]]; [done| |done].
  apply list_elem_of_singleton in Hu, Ha. subst.
  destruct Hna. by eexists.
Qed.

Lemma atoms_of_unhashable items item :
  item ∈ items →
  (∃ l, item = JArr l) ∨ (∃ m, item = JObj m) →
  atoms_of items = Raise TypeError.
Proof.
  intros Hin Hitem. induction items as [|v items IH];
    [by apply elem_of_nil in Hin|].
  apply elem_of_cons in Hin as [<-|Hin].
  - by destruct Hitem as [[l ->]|[m ->]].
  - simpl. rewrite (IH Hin). by destruct v.
Qed.

(** X8. [load_state] is silent when the state file is missing and when
    the document has no [product_urls] member; it logs one warning, and
    returns the empty set, when the file cannot be read or parsed, when
    the document is not an object, when [product_urls] is [null], a
    boolean or a number, and when it is a list with a list or an object
    among its items. *)
Theorem load_state_warning (st : state) :
  let warned :=
    (Ok (∅ : gset atom),
     add_event (EvLog WARNING "Konnte State nicht laden: %s") st) in
  (file st = Missing → load_state st = (Ok ∅, st)) ∧
  (∀ members, file st = Present (Ok (JObj members)) →
     "product_urls" ∉ members.*1 → load_state st = (Ok ∅, st)) ∧
  (∀ e, file st = Present (Raise e) → load_state st = warned) ∧
  (∀ data, file st = Present (Ok data) → (∀ m, data ≠ JObj m) →
     load_state st = warned) ∧
  (∀ members v, file st = Present (Ok (JObj members)) →
     members_get members "product_urls" (JArr []) = v →
     v = JNull ∨ (∃ b, v = JBool b) ∨ (∃ z, v = JInt z) →
     load_state st = warned) ∧
  (∀ members items item, file st = Present (Ok (JObj members)) →
     members_get members "product_urls" (JArr []) = JArr items →
     item ∈ items → (∃ l, item = JArr l) ∨ (∃ m, item = JObj m) →
     load_state st = warned).
Proof.
  intros warned. unfold warned. rewrite load_state_stored.
  unfold stored_urls. split_and!.
  - by intros ->.
  - intros members -> Hk. simpl. by rewrite members_get_absent.
  - by intros e ->.
  - intros data -> Hno. by destruct data; naive_solver.
  - intros members v -> Hget Hv. simpl. rewrite Hget.
    by destruct Hv as [->|[[b ->]|[z ->]]].
  - intros members items item -> Hget Hin Hitem. simpl. rewrite Hget. simpl.
    by rewrite (atoms_of_unhashable items item).
Qed.

(** X9. When [product_urls] holds a string, the set is the set of its
    characters; when it holds an object, the set is the set of its keys.
    Neither logs a warning. *)
Theorem load_state_string_or_object (st : state) :
  (∀ members s, file st = Present (Ok (JObj members)) →
     members_get members "product_urls" (JArr []) = JStr s →
     load_state st =
       (Ok (list_to_set ((λ c, PStr (String c "")) <$> Py.chars s)), st)) ∧
  (∀ members inner, file st = Present (Ok (JObj members)) →
     members_get members "product_urls" (JArr []) = JObj inner →
     load_state st = (Ok (urls (list_to_set inner.*1)), st)).
Proof.
  rewrite load_state_stored. unfold stored_urls. split.
  - intros members s -> Hget. simpl. by rewrite Hget.
  - intros members inner -> Hget. simpl. rewrite Hget. simpl.
    by rewrite <- list_to_set_urls, <- list_fmap_compose.
Qed.

End StoreMore.

(** ** Further properties of the notifier *)

Section NotifierMore.
Context (env : environment).

Lemma mail_configured_test :
  negb (negb (String.eqb (SMTP_HOST env) "")
        && negb (String.eqb (SMTP_USER env) "")
        && negb (String.eqb (SMTP_PASS env) "")
        && negb (String.eqb (EMAIL_FROM env) "")
        && negb (String.eqb (EMAIL_TO env) "")) = false
  ↔ mail_configured env.
Proof.
  unfold mail_configured.
  rewrite negb_false_iff, !andb_true_iff, !negb_true_iff, !String.eqb_neq.
  tauto.
Qed.

(** What [send_email] does, by the settings and the outcome of the
    session. *)
Lemma send_email_cases subject body st :
  (mail_configured env ∧ smtp_session env = Ok () ∧
   send_email env subject body st =
     (Ok true, {| file := file st;
                  trace := trace st ++
                    [EvMail subject body;
                     EvLog INFO "E-Mail versendet an %s"] |})) ∨
  (mail_configured env ∧ (∃ e, smtp_session env = Raise e) ∧
   send_email env subject body st =
     (Ok false, {| file := file st;
                   trace := trace st ++
                     [EvLog ERROR "E-Mail-Fehler: %s"] |})) ∨
  (¬ mail_configured env ∧
   send_email env subject body st =
     (Ok false, {| file := file st;
                   trace := trace st ++
                     [EvLog ERROR "E-Mail nicht konfiguriert."] |})).
Proof.
  unfold send_email.
  destruct (negb _) eqn:Hc.
  - right; right. split; [|done]. intros Hm%mail_configured_test. congruence.
  - apply mail_configured_test in Hc.
    unfold try_except, bind, lift, emit, log, emit, ret, add_event.
    destruct (smtp_session env) as [[]|e]; simpl.
    + left. by rewrite <- app_assoc.
    + right; left. eauto.
Qed.

(** X10. [send_email] never raises and leaves the state file alone.  It
    returns [True] exactly when the five settings are present and the
    session succeeds; the message goes out in that case and in no other,
    and a failure is logged as one error. *)
Theorem send_email_result subject body st :
  ∃ b evs,
    send_email env subject body st =
      (Ok b, {| file := file st; trace := trace st ++ evs |}) ∧
    (b = true ↔ mail_configured env ∧ smtp_session env = Ok ()) ∧
    mails evs = (if b then [(subject, body)] else []) ∧
    writes evs = [] ∧
    (b = false → ∃ msg, evs = [EvLog ERROR msg]).
Proof.
  destruct (send_email_cases subject body st)
    as [(Hc & Hs & ->)|[(Hc & [e Hs] & ->)|(Hc & ->)]].
  - eexists true, _. split_and!; [done|by split|done..].
  - eexists false, _. split_and!; [done| |done..|by eauto].
    split; [done|]. intros [_ ?]. congruence.
  - eexists false, _. split_and!; [done| |done..|by eauto].
    split; [done|]. by intros [? _].
Qed.

Lemma notify_new_items_cases l st :
  ∃ evs, notify_new_items env l st =
           (Ok (), {| file := file st; trace := trace st ++ evs |}) ∧
         writes evs = [] ∧
         ((l ≠ [] ∧ mail_configured env ∧ smtp_session env = Ok () ∧
           mails evs = [(mail_subject, mail_body l)]) ∨
          ((l = [] ∨ ¬ mail_configured env ∨ smtp_session env ≠ Ok ()) ∧
           mails evs = [])).
Proof.
  unfold notify_new_items. destruct l as [|a l].
  - eexists [_]. split_and!; [done..|]. right. split; [by left|done].
  - unfold bind.
    destruct (send_email_cases mail_subject (mail_body (a :: l)) st)
      as [(Hc & Hs & ->)|[(Hc & [e Hs] & ->)|(Hc & ->)]];
      eexists; (split_and!; [done|done|]).
    + left. done.
    + right. split; [|done]. right; right. congruence.
    + right. split; [|done]. right; by left.
Qed.

(** X11. [notify_new_items] never raises and never writes the state
    file.  It sends one message, with the fixed subject and the body
    listing the given URLs, when the list is not empty, the mail settings
    are present and the session succeeds; otherwise it sends none. *)
Theorem notify_new_items_mail l st :
  ∃ evs, notify_new_items env l st =
           (Ok (), {| file := file st; trace := trace st ++ evs |}) ∧
         writes evs = [] ∧
         (l ≠ [] → mail_configured env → smtp_session env = Ok () →
          mails evs = [(mail_subject, mail_body l)]) ∧
         (l = [] ∨ ¬ mail_configured env ∨ smtp_session env ≠ Ok () →
          mails evs = []).
Proof.
  destruct (notify_new_items_cases l st)
    as (evs & Hn & Hw & [(Hl & Hc & Hs & Hm)|(Hno & Hm)]);
    exists evs; (split_and!; [done|done| |]).
  - done.
  - intros [?|[?|?]]; done.
  - intros Hl Hc Hs. by destruct Hno as [?|[?|?]].
  - done.
Qed.

End NotifierMore.

Section MailBody.

Variable sep : ascii.

Lemma split_app_sep x t :
  sep ∉ Py.chars x →
  Py.split sep (x +:+ String sep t) = x :: Py.split sep t.
Proof.
  induction x as [|c x IH]; intros Hx.
  - apply split_sep.
  - simpl in Hx. apply not_elem_of_cons in Hx as [Hc Hx].
    change (String c x +:+ String sep t) with (String c (x +:+ String sep t)).
    by apply split_other, IH.
Qed.

(** Cutting at the separator undoes joining with it. *)
Lemma split_concat ls :
  ls ≠ [] → Forall (λ x, sep ∉ Py.chars x) ls →
  Py.split sep (String.concat (String sep "") ls) = ls.
Proof.
  induction ls as [|x ls IH]; [done|]. intros _ Hall.
  apply Forall_cons in Hall as [Hx Hls].
  destruct ls as [|y ls].
  - simpl. by apply split_no_sep.
  - change (String.concat (String sep "") (x :: y :: ls))
      with (x +:+ String sep (String.concat (String sep "") (y :: ls))).
    rewrite split_app_sep by done. f_equal. by apply IH.
Qed.

End MailBody.

(** X12. The body of the mail, cut at the line breaks, is the header
    line, an empty line and one bullet line for each URL, in the order of
    the list, provided no URL holds a line break. *)
Theorem mail_body_lines (new_urls : list atom) :
  Forall (λ u, Py.str_in (String "010" "") (py_str u) = false) new_urls →
  Py.split "010" (mail_body new_urls) = mail_lines new_urls ∧
  length (mail_lines new_urls) = 2 + length new_urls.
Proof.
  intros Hall. split.
  - unfold mail_body. apply split_concat; [done|].
    change (Forall (λ x, "010"%char ∉ Py.chars x) (mail_lines new_urls)).
    unfold mail_lines. apply Forall_app. split.
    + repeat constructor; by apply str_in_char_false.
    + apply Forall_fmap. eapply Forall_impl; [exact Hall|].
      intros u Hu%str_in_char_false. unfold compose.
      change (Py.chars ("• " +:+ py_str u)) with
        ("226"%char :: "128"%char :: "162"%char :: " "%char
         :: Py.chars (py_str u)).
      rewrite !not_elem_of_cons. by split_and!.
  - unfold mail_lines. rewrite length_app, length_fmap. done.
Qed.

(** ** Further properties of the orchestrator *)

Section OrchestratorMore.
Context {pkgs : Packages} (env : environment).

Lemma bind_ok {A B} (m : M A) (k : A → M B) st a st' :
  m st = (Ok a, st') → bind m k st = k a st'.
Proof. intros Hm. unfold bind. by rewrite Hm. Qed.

Lemma bind_raise {A B} (m : M A) (k : A → M B) st e st' :
  m st = (Raise e, st') → bind m k st = (Raise e, st').
Proof. intros Hm. unfold bind. by rewrite Hm. Qed.

Lemma log_bind {B} lvl msg (k : unit → M B) st :
  bind (log lvl msg) k st = k () (add_event (EvLog lvl msg) st).
Proof. done. Qed.

Lemma load_state_file_eq st st' :
  file st' = file st → (load_state st').1 = (load_state st).1.
Proof.
  intros Hf. rewrite !load_state_stored, Hf.
  by destruct (stored_urls (file st)).
Qed.

Lemma load_state_returns st : ∃ prev, (load_state st).1 = Ok prev.
Proof.
  rewrite load_state_stored. destruct (stored_urls (file st)); eauto.
Qed.

Lemma list_to_set_strs_empty (l : list string) :
  (list_to_set (PStr <$> l) : gset atom) = ∅ ↔ l = [].
Proof.
  split; [|by intros ->]. destruct l as [|u l]; [done|].
  intros Hl. assert (PStr u ∈ (∅ : gset atom)) as Hu; [|set_solver].
  rewrite <- Hl. apply elem_of_list_to_set. by left.
Qed.

Lemma only_logs evs :
  Forall (λ ev, ∃ l m, ev = EvLog l m) evs → mails evs = [] ∧ writes evs = [].
Proof.
  induction 1 as [|ev evs (l & m & ->) _ [IH1 IH2]]; [done|].
  unfold mails, writes in *. csimpl. by rewrite IH1, IH2.
Qed.

Lemma mails_app evs1 evs2 : mails (evs1 ++ evs2) = mails evs1 ++ mails evs2.
Proof. apply omap_app. Qed.

Lemma writes_app evs1 evs2 :
  writes (evs1 ++ evs2) = writes evs1 ++ writes evs2.
Proof. apply omap_app. Qed.

(** A steady-state run in which every extracted URL is already stored. *)
Lemma main_nothing_new_run st resp_text links prev :
  http_get env (CATEGORY_URL env) = Ok resp_text →
  extract_product_links resp_text (CATEGORY_URL env) = Ok links →
  (load_state st).1 = Ok prev → prev ≠ ∅ →
  (∀ u, u ∈ links.*1 → PStr u ∈ prev) →
  main env st =
    (Ok 0%Z,
     add_event (EvLog INFO "Keine neuen Produkte seit letztem Check.")
       (if bool_decide (links = [])
        then add_event
               (EvLog WARNING "Konnte keine Produkt-Links erkennen.") st
        else st)).
Proof.
  intros Hf He Hl Hne Hsub.
  unfold main. rewrite Hf. unfold bind at 1. unfold lift at 1. rewrite He.
  cbv zeta.
  set (st0 := if bool_decide (links = [])
              then add_event
                     (EvLog WARNING "Konnte keine Produkt-Links erkennen.") st
              else st).
  assert (file st0 = file st) as Hf0 by (by unfold st0; case_bool_decide).
  rewrite (bind_ok _ _ st () st0).
  2:{ unfold st0. case_bool_decide as H1; case_bool_decide as H2; try done.
      - apply list_to_set_strs_empty in H1.
        by apply fmap_nil_inv in H1.
      - subst. by destruct H1. }
  rewrite (bind_ok _ _ st0 prev st0)
    by (by apply (load_state_nonempty st)).
  rewrite size_eqb_0, bool_decide_eq_false_2 by done.
  assert (diff_links prev (list_to_set (PStr <$> links.*1)) = Ok []) as Hd.
  { unfold diff_links, sorted.
    assert (list_to_set (PStr <$> links.*1) ∖ prev = (∅ : gset atom)) as ->;
      [|done].
    apply set_eq. intros x.
    rewrite elem_of_difference, elem_of_list_to_set, list_elem_of_fmap,
      elem_of_empty.
    split; [|done]. intros [(u & -> & Hu) Hn]. by apply Hn, Hsub. }
  unfold bind at 1. unfold lift at 1. rewrite Hd. done.
Qed.

(** X13. A run in which every extracted URL is already stored, be it
    because the listing shrank or because nothing was extracted, ends with
    code 0, sends no mail and leaves the state file as it was; an empty
    extraction adds a warning. *)
Theorem main_nothing_new st resp_text links prev :
  http_get env (CATEGORY_URL env) = Ok resp_text →
  extract_product_links resp_text (CATEGORY_URL env) = Ok links →
  (load_state st).1 = Ok prev → prev ≠ ∅ →
  (∀ u, u ∈ links.*1 → PStr u ∈ prev) →
  (main env st).1 = Ok 0%Z ∧
  file (main env st).2 = file st ∧
  trace (main env st).2 =
    trace st
    ++ (if bool_decide (links = [])
        then [EvLog WARNING "Konnte keine Produkt-Links erkennen."] else [])
    ++ [EvLog INFO "Keine neuen Produkte seit letztem Check."].
Proof.
  intros Hf He Hl Hne Hsub.
  rewrite (main_nothing_new_run st resp_text links prev) by done.
  case_bool_decide; split_and!; try done.
  simpl. by rewrite <- app_assoc.
Qed.

(** The state after a run that returns: what the file then records holds
    what it recorded before and, after a successful fetch and extraction,
    every extracted URL. *)
Lemma main_returns_stored st prev code :
  (load_state st).1 = Ok prev → (main env st).1 = Ok code →
  ∃ stored, (load_state (main env st).2).1 = Ok stored ∧ prev ⊆ stored ∧
    ∀ resp_text links,
      http_get env (CATEGORY_URL env) = Ok resp_text →
      extract_product_links resp_text (CATEGORY_URL env) = Ok links →
      ∀ u, u ∈ links.*1 → PStr u ∈ stored.
Proof.
  intros Hl Hm.
  destruct (http_get env (CATEGORY_URL env)) as [resp_text|e] eqn:Hf.
  2:{ rewrite (main_fetch_fails env st e Hf). exists prev.
      split_and!; [by rewrite <- Hl; apply load_state_file_eq|done|done]. }
  destruct (extract_product_links resp_text (CATEGORY_URL env))
    as [links|e] eqn:He.
  2:{ by rewrite (main_extract_raises env st resp_text e Hf He) in Hm. }
  destruct (main_extracted env st resp_text links Hf He)
    as (st1 & prev' & new & Hf1 & _ & _ & Hl' & Hd & Hnew & Hmain).
  assert (prev' = prev) as -> by congruence.
  rewrite Hmain in Hm |- *. clear Hmain.
  assert (∀ stored : gset atom,
    (∀ u, u ∈ links.*1 → PStr u ∈ stored) →
    ∀ resp_text' links',
      Ok resp_text = Ok resp_text' →
      extract_product_links resp_text' (CATEGORY_URL env) = Ok links' →
      ∀ u, u ∈ links'.*1 → PStr u ∈ stored) as Hlinks.
  { intros stored Hs resp_text' links' [= <-] He'. rewrite He in He'.
    by injection He' as <-. }
  case_bool_decide as Hp.
  - (* first run *)
    subst prev.
    destruct (save_state_cases env (urls (list_to_set links.*1))
                (add_event (EvLog INFO "Erstlauf – speichere (%d Links).") st1))
      as [(l & Hsl & _ & Hsave)|[(e & Hsave & _)|[_ Hsave]]].
    2,3: rewrite log_bind, (bind_raise _ _ _ _ _ Hsave) in Hm; done.
    rewrite log_bind, (bind_ok _ _ _ _ _ Hsave).
    set (st2 := {| file := Present (Ok (snapshot (utcnow env) l));
                   trace := _ |}).
    assert (∃ st3, file st3 = file st2 ∧
      (((if bool_decide (NOTIFY_ON_FIRST_RUN env = Some "1")
         then l0 <- lift (sorted (urls (list_to_set links.*1)));;
              notify_new_items env l0
         else ret ());; ret 0%Z)%M st2) = (Ok 0%Z, st3)) as (st3 & Hf3 & ->).
    { case_bool_decide.
      - destruct (sorted_urls (urls (list_to_set links.*1)) (urls_is_url _))
          as (l' & Hl2 & _).
        destruct (notify_new_items_returns env (PStr <$> l') st2)
          as (evs & Hn & _).
        eexists. split; [|unfold bind, lift; by rewrite Hl2, Hn]. done.
      - by exists st2. }
    exists (urls (list_to_set links.*1)). split_and!.
    + rewrite load_state_stored. cbn [snd]. rewrite Hf3. cbn [file st2].
      rewrite stored_urls_snapshot.
      by rewrite (sorted_list_to_set _ l Hsl).
    + set_solver.
    + apply Hlinks. intros u Hu. apply elem_of_urls.
      by apply elem_of_list_to_set.
  - destruct new as [|u0 new].
    + (* nothing new *)
      exists prev. split_and!.
      * rewrite <- Hl. by apply load_state_file_eq.
      * done.
      * apply Hlinks. intros u Hu.
        destruct (decide (PStr u ∈ prev)) as [|Hn]; [done|].
        assert (u ∈ ([] : list string)) as ?%elem_of_nil; [|done].
        apply Hnew. split; [by apply elem_of_list_to_set|done].
    + (* new URLs *)
      destruct (notify_new_items_returns env (PStr <$> u0 :: new)
                  (add_event (EvLog INFO "Neue Produkte: %d") st1))
        as (evs & Hn & _).
      rewrite log_bind, (bind_ok _ _ _ _ _ Hn) in Hm |- *.
      match type of Hn with _ = (_, ?s) => set (st2 := s) in * end.
      destruct (save_state_cases env
                  (prev ∪ list_to_set (PStr <$> u0 :: new)) st2)
        as [(l & Hsl & _ & Hsave)|[(e & Hsave & _)|[_ Hsave]]].
      2,3: rewrite (bind_raise _ _ _ _ _ Hsave) in Hm; done.
      rewrite (bind_ok _ _ _ _ _ Hsave).
      exists (prev ∪ list_to_set (PStr <$> u0 :: new)). split_and!.
      * rewrite load_state_stored. cbn [snd ret file].
        rewrite stored_urls_snapshot.
        by rewrite (sorted_list_to_set _ l Hsl).
      * apply union_subseteq_l.
      * apply Hlinks. intros u Hu. apply elem_of_union.
        destruct (decide (PStr u ∈ prev)) as [|Hnp]; [by left|right].
        apply elem_of_list_to_set, list_elem_of_fmap. exists u.
        split; [done|]. apply Hnew. split; [by apply elem_of_list_to_set|done].
Qed.

(** X14. A run that returns never forgets: every element the state file
    recorded before the run is recorded after it. *)
Theorem main_never_forgets st prev code :
  (load_state st).1 = Ok prev → (main env st).1 = Ok code →
  ∃ stored, (load_state (main env st).2).1 = Ok stored ∧ prev ⊆ stored.
Proof.
  intros Hl Hm.
  destruct (main_returns_stored st prev code Hl Hm) as (stored & ? & ? & _).
  eauto.
Qed.

(** X15. After a run that fetched the page, extracted its links and
    returned, every extracted URL is recorded in the state file. *)
Theorem main_stores_extracted st resp_text links code :
  http_get env (CATEGORY_URL env) = Ok resp_text →
  extract_product_links resp_text (CATEGORY_URL env) = Ok links →
  (main env st).1 = Ok code →
  ∃ stored, (load_state (main env st).2).1 = Ok stored ∧
            ∀ u, u ∈ links.*1 → PStr u ∈ stored.
Proof.
  intros Hf He Hm.
  destruct (load_state_returns st) as (prev & Hl).
  destruct (main_returns_stored st prev code Hl Hm) as (stored & ? & _ & Hs).
  eauto.
Qed.

(** The end of a first run: the optional notification, then [return 0]. *)
Lemma first_run_tail (current : gset string) st2 :
  ∃ evs,
    ((if bool_decide (NOTIFY_ON_FIRST_RUN env = Some "1")
      then l <- lift (sorted (urls current)) ;; notify_new_items env l
      else ret ()) ;; ret 0%Z)%M st2
    = (Ok 0%Z, {| file := file st2; trace := trace st2 ++ evs |}) ∧
    writes evs = [] ∧ length (mails evs) ≤ 1 ∧
    (NOTIFY_ON_FIRST_RUN env ≠ Some "1" → evs = []) ∧
    (NOTIFY_ON_FIRST_RUN env = Some "1" →
     ∃ l, sorted (urls current) = Ok (PStr <$> l) ∧
          notify_new_items env (PStr <$> l) st2 =
            (Ok (), {| file := file st2; trace := trace st2 ++ evs |})).
Proof.
  case_bool_decide as Hflag.
  - destruct (sorted_urls (urls current) (urls_is_url _)) as (l & Hl & _).
    destruct (notify_new_items_cases env (PStr <$> l) st2)
      as (evs & Hn & Hw & Hm).
    exists evs. split_and!.
    + unfold bind, lift. by rewrite Hl, Hn.
    + done.
    + destruct Hm as [(_ & _ & _ & ->)|[_ ->]]; simpl; lia.
    + done.
    + intros _. eauto.
  - exists []. destruct st2. rewrite app_nil_r. split_and!; try done.
    simpl. lia.
Qed.

(** X16. A first run (nothing stored, whatever the reason) with the
    first-run flag not set to ["1"] and a write that succeeds saves the
    ascending list of all extracted URLs, sends no mail and returns 0. *)
Theorem main_bootstrap st resp_text links :
  http_get env (CATEGORY_URL env) = Ok resp_text →
  extract_product_links resp_text (CATEGORY_URL env) = Ok links →
  (load_state st).1 = Ok ∅ →
  NOTIFY_ON_FIRST_RUN env ≠ Some "1" →
  fs_write env = Written →
  ∃ l evs,
    (∀ u, u ∈ l ↔ u ∈ links.*1) ∧ NoDup l ∧ StronglySorted String.le l ∧
    Forall (λ ev, ∃ lvl msg, ev = EvLog lvl msg) evs ∧
    main env st =
      (Ok 0%Z,
       {| file := Present (Ok (snapshot (utcnow env) (PStr <$> l)));
          trace := trace st ++ evs
                   ++ [EvWrite (snapshot (utcnow env) (PStr <$> l))] |}) ∧
    snapshot (utcnow env) (PStr <$> l) =
      JObj [("saved_at", JStr (utcnow env));
            ("product_urls", JArr (JStr <$> l))] ∧
    (load_state (main env st).2).1 = Ok (urls (list_to_set links.*1)).
Proof.
  intros Hf He Hl Hflag Hw.
  destruct (main_extracted env st resp_text links Hf He)
    as (st1 & prev & new & Hf1 & (evs0 & Ht1 & Hlogs) & _ & Hl' & _ & _ & ->).
  assert (prev = ∅) as -> by congruence.
  rewrite bool_decide_eq_true_2 by done. rewrite log_bind.
  destruct (save_state_urls env (list_to_set links.*1)
              (add_event (EvLog INFO "Erstlauf – speichere (%d Links).") st1))
    as (l & Hin & Hnd & Hs & Hsave).
  rewrite write_json_written in Hsave by done.
  rewrite (bind_ok _ _ _ _ _ Hsave).
  destruct (first_run_tail (list_to_set links.*1)
     {| file := Present (Ok (snapshot (utcnow env) (PStr <$> l)));
        trace := trace (add_event
                   (EvLog INFO "Erstlauf – speichere (%d Links).") st1)
                 ++ [EvWrite (snapshot (utcnow env) (PStr <$> l))] |})
    as (evs & -> & _ & _ & Hevs & _).
  rewrite (Hevs Hflag), app_nil_r.
  exists l, (evs0 ++ [EvLog INFO "Erstlauf – speichere (%d Links)."]).
  split_and!; [|done..| | | |].
  - intros u. by rewrite Hin, elem_of_list_to_set.
  - apply Forall_app. split; [done|]. apply Forall_singleton. eauto.
  - simpl. rewrite Ht1. by rewrite <- !app_assoc.
  - unfold snapshot. by rewrite <- list_fmap_compose.
  - rewrite load_state_stored. cbn [snd file].
    rewrite stored_urls_snapshot, list_to_set_urls. cbn [fst].
    do 2 f_equal. apply set_eq. intros u. by rewrite elem_of_list_to_set, Hin.
Qed.

(** X17. With the first-run flag set to ["1"], a first run whose write
    succeeds first saves the snapshot and then notifies with the ascending
    list of all extracted URLs; with the mail settings present, a session
    that succeeds and at least one URL, one message listing them all goes
    out after the write. *)
Theorem main_bootstrap_notify st resp_text links :
  http_get env (CATEGORY_URL env) = Ok resp_text →
  extract_product_links resp_text (CATEGORY_URL env) = Ok links →
  (load_state st).1 = Ok ∅ →
  NOTIFY_ON_FIRST_RUN env = Some "1" →
  fs_write env = Written →
  ∃ l evs,
    (∀ u, u ∈ l ↔ u ∈ links.*1) ∧ NoDup l ∧ StronglySorted String.le l ∧
    Forall (λ ev, ∃ lvl msg, ev = EvLog lvl msg) evs ∧
    let snap := snapshot (utcnow env) (PStr <$> l) in
    let st_saved := {| file := Present (Ok snap);
                       trace := trace st ++ evs ++ [EvWrite snap] |} in
    main env st = (Ok 0%Z, (notify_new_items env (PStr <$> l) st_saved).2) ∧
    (links ≠ [] → mail_configured env → smtp_session env = Ok () →
     main env st =
       (Ok 0%Z,
        {| file := Present (Ok snap);
           trace := trace st ++ evs
                    ++ [EvWrite snap;
                        EvMail mail_subject (mail_body (PStr <$> l));
                        EvLog INFO "E-Mail versendet an %s"] |})) ∧
    snap = JObj [("saved_at", JStr (utcnow env));
                 ("product_urls", JArr (JStr <$> l))] ∧
    (load_state (main env st).2).1 = Ok (urls (list_to_set links.*1)).
Proof.
  intros Hf He Hl Hflag Hw.
  destruct (main_extracted env st resp_text links Hf He)
    as (st1 & prev & new & Hf1 & (evs0 & Ht1 & Hlogs) & _ & Hl' & _ & _ & ->).
  assert (prev = ∅) as -> by congruence.
  rewrite bool_decide_eq_true_2 by done. rewrite log_bind.
  destruct (sorted_urls (urls (list_to_set links.*1)) (urls_is_url _))
    as (l & Hsl & Hin & Hnd & Hs).
  set (snap := snapshot (utcnow env) (PStr <$> l)).
  set (st2 := {| file := Present (Ok snap);
                 trace := trace (add_event
                   (EvLog INFO "Erstlauf – speichere (%d Links).") st1)
                   ++ [EvWrite snap] |}).
  assert (save_state env (urls (list_to_set links.*1))
            (add_event (EvLog INFO "Erstlauf – speichere (%d Links).") st1)
          = (Ok (), st2)) as Hsave.
  { unfold save_state, bind, lift. rewrite Hsl.
    by rewrite write_json_written. }
  rewrite (bind_ok _ _ _ _ _ Hsave).
  destruct (first_run_tail (list_to_set links.*1) st2)
    as (evs & -> & _ & _ & _ & Hevs).
  destruct (Hevs Hflag) as (l' & Hl2 & Hn).
  assert (PStr <$> l' = PStr <$> l) as Hll by congruence.
  rewrite Hll in Hn. clear Hl2 Hll Hevs l'.
  exists l, (evs0 ++ [EvLog INFO "Erstlauf – speichere (%d Links)."]).
  assert (st2 = {| file := Present (Ok snap);
                   trace := trace st ++
                     (evs0 ++ [EvLog INFO "Erstlauf – speichere (%d Links)."])
                     ++ [EvWrite snap] |})
    as Hst2.
  { unfold st2. simpl. rewrite Ht1. by rewrite <- !app_assoc. }
  split_and!; [|done..| |].
  - intros u. by rewrite Hin, elem_of_urls, elem_of_list_to_set.
  - apply Forall_app. split; [done|]. apply Forall_singleton. eauto.
  - cbv zeta. fold snap. rewrite <- Hst2. split_and!.
    + by rewrite Hn.
    + intros Hne Hc Hsm.
      assert (PStr <$> l ≠ []) as Hlne.
      { destruct links as [|[u t] links]; [done|].
        assert (u ∈ l) as Hu.
        { apply Hin, elem_of_urls, elem_of_list_to_set. by left. }
        destruct l; [by apply elem_of_nil in Hu|done]. }
      pose proof (notify_new_items_sent env _ st2 Hlne Hc Hsm) as Hn'.
      rewrite Hn in Hn'. injection Hn' as Hn'.
      apply app_inv_head in Hn'. subst evs.
      unfold st2. simpl. rewrite Ht1. by rewrite <- !app_assoc.
    + unfold snap, snapshot. by rewrite <- list_fmap_compose.
    + rewrite load_state_stored. cbn [snd file]. unfold st2 at 1.
      cbn [file]. unfold snap. rewrite stored_urls_snapshot.
      by rewrite (sorted_list_to_set _ _ Hsl).
Qed.

(** X18. The notification precedes the save.  In a steady-state run with
    a new URL, the mail settings present and a session that succeeds, but
    a state file that cannot be opened for writing, the message has gone
    out when [save_state] raises, and the state file is as before. *)
Theorem main_mail_before_save st resp_text links (prev : gset string) u :
  http_get env (CATEGORY_URL env) = Ok resp_text →
  extract_product_links resp_text (CATEGORY_URL env) = Ok links →
  (load_state st).1 = Ok (urls prev) → prev ≠ ∅ →
  u ∈ links.*1 → u ∉ prev →
  mail_configured env → smtp_session env = Ok () →
  fs_write env = OpenFails →
  ∃ new,
    diff_links (urls prev) (urls (list_to_set links.*1))
      = Ok (PStr <$> new) ∧
    u ∈ new ∧
    main env st =
      (Raise OSError,
       {| file := file st;
          trace := trace st ++
            [EvLog INFO "Neue Produkte: %d";
             EvMail mail_subject (mail_body (PStr <$> new));
             EvLog INFO "E-Mail versendet an %s"] |}).
Proof.
  intros Hf He Hl Hne Hu Hnu Hc Hs Hw.
  destruct (main_extracted env st resp_text links Hf He)
    as (st1 & prev' & new & _ & _ & Hst1 & Hl' & Hd & Hnew & ->).
  assert (prev' = urls prev) as -> by congruence.
  assert (urls prev ≠ ∅) as Hne' by (by intros ?%urls_empty_inv).
  assert (u ∈ new) as Hin.
  { apply Hnew. rewrite elem_of_list_to_set, elem_of_urls. done. }
  assert (st1 = st) as ->.
  { apply Hst1; [|done]. intros Hcur.
    assert (PStr u ∈ urls (list_to_set links.*1)) as Hx
      by (by apply elem_of_urls, elem_of_list_to_set).
    rewrite Hcur in Hx. by apply elem_of_empty in Hx. }
  exists new. split_and!; [done..|].
  rewrite bool_decide_eq_false_2 by done.
  destruct new as [|u0 new]; [by apply elem_of_nil in Hin|].
  rewrite log_bind.
  assert (PStr <$> u0 :: new ≠ []) as Hlne by (by csimpl).
  rewrite (bind_ok _ _ _ _ _
             (notify_new_items_sent env (PStr <$> u0 :: new) _ Hlne Hc Hs)).
  edestruct (save_state_strs env (urls prev ∪ list_to_set (PStr <$> u0 :: new)))
    as (l & _ & _ & _ & Hsave).
  { intros x [Hx|Hx]%elem_of_union; [by apply urls_is_url in Hx|].
    apply elem_of_list_to_set, list_elem_of_fmap in Hx as (? & -> & _).
    by eexists. }
  erewrite bind_raise; [|rewrite Hsave; unfold write_json; by rewrite Hw].
  simpl. by rewrite <- app_assoc.
Qed.

(** X19. Whatever happens, one run sends at most one message and writes
    the state file at most once.  When it has written, the file holds
    what was written; when it has not, the file is as before (unless the
    write broke off after the file was opened). *)
Theorem main_effects st :
  ∃ evs,
    trace (main env st).2 = trace st ++ evs ∧
    length (mails evs) ≤ 1 ∧ length (writes evs) ≤ 1 ∧
    (writes evs = [] → fs_write env ≠ DumpFails →
     file (main env st).2 = file st) ∧
    (∀ payload, writes evs = [payload] →
     file (main env st).2 = Present (Ok payload)).
Proof.
  destruct (http_get env (CATEGORY_URL env)) as [resp_text|e] eqn:Hf.
  2:{ rewrite (main_fetch_fails env st e Hf).
      exists [EvLog ERROR "HTTP-Fehler: %s"].
      split_and!; simpl; [done|lia|lia|done|done]. }
  destruct (extract_product_links resp_text (CATEGORY_URL env))
    as [links|e] eqn:He.
  2:{ rewrite (main_extract_raises env st resp_text e Hf He). exists [].
      rewrite app_nil_r. split_and!; simpl; [done|lia|lia|done|done]. }
  destruct (main_extracted env st resp_text links Hf He)
    as (st1 & prev & new & Hf1 & (evs0 & Ht1 & Hlogs) & _ & _ & _ & _ & ->).
  destruct (only_logs evs0 Hlogs) as [Hm0 Hw0].
  case_bool_decide.
  - rewrite log_bind.
    destruct (save_state_cases env (urls (list_to_set links.*1))
                (add_event (EvLog INFO "Erstlauf – speichere (%d Links).") st1))
      as [(l & _ & _ & Hsave)|[(e & Hsave & _)|[Hw Hsave]]].
    + rewrite (bind_ok _ _ _ _ _ Hsave).
      match goal with |- context [(_ ;; ret 0%Z)%M ?s] => set (st2 := s) end.
      destruct (first_run_tail (list_to_set links.*1) st2)
        as (evs & -> & Hwn & Hmn & _).
      exists (evs0 ++ [EvLog INFO "Erstlauf – speichere (%d Links).";
                       EvWrite (snapshot (utcnow env) l)] ++ evs).
      rewrite !mails_app, !writes_app, Hm0, Hw0, Hwn. simpl.
      split_and!; [|lia|lia|done|by intros ? [= <-]].
      rewrite Ht1. by rewrite <- !app_assoc.
    + rewrite (bind_raise _ _ _ _ _ Hsave).
      exists (evs0 ++ [EvLog INFO "Erstlauf – speichere (%d Links)."]).
      rewrite !mails_app, !writes_app, Hm0, Hw0. simpl.
      split_and!; [|lia|lia|done|done].
      rewrite Ht1. by rewrite <- !app_assoc.
    + rewrite (bind_raise _ _ _ _ _ Hsave).
      exists (evs0 ++ [EvLog INFO "Erstlauf – speichere (%d Links)."]).
      rewrite !mails_app, !writes_app, Hm0, Hw0. simpl.
      split_and!; [|lia|lia|done|done].
      rewrite Ht1. by rewrite <- !app_assoc.
  - destruct new as [|u0 new].
    + exists (evs0 ++ [EvLog INFO "Keine neuen Produkte seit letztem Check."]).
      rewrite !mails_app, !writes_app, Hm0, Hw0. simpl.
      split_and!; [|lia|lia|done|done].
      rewrite Ht1. by rewrite <- !app_assoc.
    + rewrite log_bind.
      destruct (notify_new_items_cases env (PStr <$> u0 :: new)
                  (add_event (EvLog INFO "Neue Produkte: %d") st1))
        as (evs & Hn & Hwn & Hmn).
      assert (length (mails evs) ≤ 1) as Hlen
        by (destruct Hmn as [(_ & _ & _ & ->)|[_ ->]]; simpl; lia).
      rewrite (bind_ok _ _ _ _ _ Hn).
      match type of Hn with _ = (_, ?s) => set (st2 := s) in * end.
      destruct (save_state_cases env
                  (prev ∪ list_to_set (PStr <$> u0 :: new)) st2)
        as [(l & _ & _ & Hsave)|[(e & Hsave & _)|[Hw Hsave]]].
      * rewrite (bind_ok _ _ _ _ _ Hsave).
        exists (evs0 ++ [EvLog INFO "Neue Produkte: %d"] ++ evs
                ++ [EvWrite (snapshot (utcnow env) l)]).
        rewrite !mails_app, !writes_app, Hm0, Hw0, Hwn. simpl.
        rewrite app_nil_r.
        split_and!; [|lia|lia|done|by intros ? [= <-]].
        rewrite Ht1. by rewrite <- !app_assoc.
      * rewrite (bind_raise _ _ _ _ _ Hsave).
        exists (evs0 ++ [EvLog INFO "Neue Produkte: %d"] ++ evs).
        rewrite !mails_app, !writes_app, Hm0, Hw0, Hwn. simpl.
        split_and!; [|lia|lia|done|done].
        rewrite Ht1. by rewrite <- !app_assoc.
      * rewrite (bind_raise _ _ _ _ _ Hsave).
        exists (evs0 ++ [EvLog INFO "Neue Produkte: %d"] ++ evs).
        rewrite !mails_app, !writes_app, Hm0, Hw0, Hwn. simpl.
        split_and!; [|lia|lia|done|done].
        rewrite Ht1. by rewrite <- !app_assoc.
Qed.

End OrchestratorMore.

(** X20. Running the monitor again on a page that lists nothing beyond
    the first run's non-empty listing is quiet: after a first run that
    returned, the second run returns 0, sends no mail and leaves the state
    file as the first run left it. *)
Theorem main_rerun_quiet {pkgs : Packages} (env env2 : environment) st
    resp_text links code resp_text2 links2 :
  http_get env (CATEGORY_URL env) = Ok resp_text →
  extract_product_links resp_text (CATEGORY_URL env) = Ok links →
  links ≠ [] →
  (main env st).1 = Ok code →
  http_get env2 (CATEGORY_URL env2) = Ok resp_text2 →
  extract_product_links resp_text2 (CATEGORY_URL env2) = Ok links2 →
  (∀ u, u ∈ links2.*1 → u ∈ links.*1) →
  let st' := (main env st).2 in
  (main env2 st').1 = Ok 0%Z ∧
  file (main env2 st').2 = file st' ∧
  ∃ evs, trace (main env2 st').2 = trace st' ++ evs ∧
         Forall (λ ev, ∃ lvl msg, ev = EvLog lvl msg) evs.
Proof.
  intros Hf He Hne Hm Hf2 He2 Hsub st'.
  destruct (load_state_returns st) as (prev & Hl).
  destruct (main_returns_stored env st prev code Hl Hm)
    as (stored & Hl' & _ & Hs).
  specialize (Hs resp_text links Hf He).
  assert (stored ≠ ∅) as Hstored.
  { destruct links as [|[u t] links]; [done|]. intros ->.
    apply (not_elem_of_empty (C := gset atom) (PStr u)), Hs. by left. }
  rewrite (main_nothing_new_run env2 st' resp_text2 links2 stored
             Hf2 He2 Hl' Hstored (λ u Hu, Hs u (Hsub u Hu))).
  split_and!; [done|by case_bool_decide|].
  case_bool_decide.
  - exists [EvLog WARNING "Konnte keine Produkt-Links erkennen.";
            EvLog INFO "Keine neuen Produkte seit letztem Check."].
    simpl. rewrite <- app_assoc. split; [done|].
    repeat constructor; eauto.
  - exists [EvLog INFO "Keine neuen Produkte seit letztem Check."].
    split; [done|]. repeat constructor; eauto.
Qed.

(** ** The further examples, run *)

Section RunsMore.
Import Example ExampleMore.

Lemma extract_page_BC :
  extract_product_links page_BC category_url = Ok links_BC.
Proof. reflexivity. Qed.

Lemma mail_configured_env_ok : mail_configured env_ok.
Proof. unfold mail_configured. by split_and!. Qed.

Lemma extract_product_links_nodup_witness : NoDup links_BC.*1.
Proof.
  apply (extract_product_links_nodup page_BC category_url links_BC).
  reflexivity.
Defined.

Lemma extract_product_links_first_anchor_witness :
  ∃ l1 a l2, anchors_BC = l1 ++ a :: l2 ∧ accepts category_url a B ∧
             "Beta" = title_of a B ∧
             ∀ a', a' ∈ l1 →
                   normalize_url category_url (href a') ≠ Ok (Some B).
Proof.
  apply (extract_product_links_first_anchor page_BC category_url anchors_BC
           links_BC B "Beta").
  - reflexivity.
  - reflexivity.
  - by left.
Defined.

Lemma extract_product_links_complete_witness : B ∈ links_BC.*1.
Proof.
  apply (extract_product_links_complete page_BC category_url anchors_BC
           links_BC {| href := "/MtG-Beta-Booster-Display";
                       text := "Beta again" |} B).
  - reflexivity.
  - reflexivity.
  - do 5 right. left.
  - split_and!.
    + reflexivity.
    + apply String.eqb_neq. reflexivity.
    + eexists. split; reflexivity.
Defined.

Lemma save_load_roundtrip_witness :
  load_state (save_state env_ok {[PStr "b"; PStr "a"]} st_fresh).2 =
  (Ok {[PStr "b"; PStr "a"]},
   (save_state env_ok {[PStr "b"; PStr "a"]} st_fresh).2).
Proof.
  apply (save_load_roundtrip env_ok {[PStr "b"; PStr "a"]} st_fresh).
  reflexivity.
Defined.

Lemma save_state_mixed_set_witness :
  save_state env_ok mixed st_AB = (Raise TypeError, st_AB).
Proof.
  apply (save_state_mixed_set env_ok mixed st_AB "a" (PInt 1)).
  - apply elem_of_union_l. by apply elem_of_singleton.
  - apply elem_of_union_r. by apply elem_of_singleton.
  - intros [s Hs]. discriminate Hs.
Defined.

Lemma mail_body_lines_witness :
  Py.split "010" (mail_body [PStr C]) = mail_lines [PStr C] ∧
  length (mail_lines [PStr C]) = 2 + length [PStr C].
Proof.
  apply (mail_body_lines [PStr C]).
  apply Forall_cons. split; [reflexivity|apply Forall_nil_2].
Defined.

Lemma urls_ABC_nonempty : urls (list_to_set [A; B; C]) ≠ ∅.
Proof.
  apply (non_empty_inhabited_L (PStr A)), elem_of_urls, elem_of_list_to_set.
  by left.
Qed.

Lemma main_nothing_new_witness :
  (main env_ok st_ABC).1 = Ok 0%Z ∧
  file (main env_ok st_ABC).2 = file st_ABC ∧
  trace (main env_ok st_ABC).2 =
    trace st_ABC
    ++ (if bool_decide (links_BC = [])
        then [EvLog WARNING "Konnte keine Produkt-Links erkennen."] else [])
    ++ [EvLog INFO "Keine neuen Produkte seit letztem Check."].
Proof.
  apply (main_nothing_new env_ok st_ABC page_BC links_BC
           (urls (list_to_set [A; B; C]))).
  - reflexivity.
  - reflexivity.
  - by apply load_state_file_of.
  - exact urls_ABC_nonempty.
  - intros u Hu. apply elem_of_urls, elem_of_list_to_set. by right.
Defined.

Lemma main_never_forgets_witness :
  ∃ stored, (load_state (main env_ok st_AB).2).1 = Ok stored ∧
            urls (list_to_set [A; B]) ⊆ stored.
Proof.
  apply (main_never_forgets env_ok st_AB (urls (list_to_set [A; B])) 0%Z).
  - by apply load_state_file_of.
  - by rewrite run_steady_state.
Defined.

Lemma main_stores_extracted_witness :
  ∃ stored, (load_state (main env_ok st_fresh).2).1 = Ok stored ∧
            ∀ u, u ∈ links_BC.*1 → PStr u ∈ stored.
Proof.
  apply (main_stores_extracted env_ok st_fresh page_BC links_BC 0%Z).
  - reflexivity.
  - reflexivity.
  - by rewrite run_first.
Defined.

Lemma main_bootstrap_witness :
  ∃ l evs,
    (∀ u, u ∈ l ↔ u ∈ links_BC.*1) ∧ NoDup l ∧ StronglySorted String.le l ∧
    Forall (λ ev, ∃ lvl msg, ev = EvLog lvl msg) evs ∧
    main env_ok st_fresh =
      (Ok 0%Z,
       {| file := Present (Ok (snapshot (utcnow env_ok) (PStr <$> l)));
          trace := trace st_fresh ++ evs
                   ++ [EvWrite (snapshot (utcnow env_ok) (PStr <$> l))] |}) ∧
    snapshot (utcnow env_ok) (PStr <$> l) =
      JObj [("saved_at", JStr (utcnow env_ok));
            ("product_urls", JArr (JStr <$> l))] ∧
    (load_state (main env_ok st_fresh).2).1
      = Ok (urls (list_to_set links_BC.*1)).
Proof.
  apply (main_bootstrap env_ok st_fresh page_BC links_BC).
  - reflexivity.
  - reflexivity.
  - reflexivity.
  - discriminate.
  - reflexivity.
Defined.

Lemma main_bootstrap_notify_witness :
  ∃ l evs,
    (∀ u, u ∈ l ↔ u ∈ links_BC.*1) ∧ NoDup l ∧ StronglySorted String.le l ∧
    Forall (λ ev, ∃ lvl msg, ev = EvLog lvl msg) evs ∧
    let snap := snapshot (utcnow env_notify) (PStr <$> l) in
    let st_saved := {| file := Present (Ok snap);
                       trace := trace st_fresh ++ evs ++ [EvWrite snap] |} in
    main env_notify st_fresh =
      (Ok 0%Z, (notify_new_items env_notify (PStr <$> l) st_saved).2) ∧
    (links_BC ≠ [] → mail_configured env_notify →
     smtp_session env_notify = Ok () →
     main env_notify st_fresh =
       (Ok 0%Z,
        {| file := Present (Ok snap);
           trace := trace st_fresh ++ evs
                    ++ [EvWrite snap;
                        EvMail mail_subject (mail_body (PStr <$> l));
                        EvLog INFO "E-Mail versendet an %s"] |})) ∧
    snap = JObj [("saved_at", JStr (utcnow env_notify));
                 ("product_urls", JArr (JStr <$> l))] ∧
    (load_state (main env_notify st_fresh).2).1
      = Ok (urls (list_to_set links_BC.*1)).
Proof.
  apply (main_bootstrap_notify env_notify st_fresh page_BC links_BC).
  - reflexivity.
  - reflexivity.
  - reflexivity.
  - reflexivity.
  - reflexivity.
Defined.

Lemma main_mail_before_save_witness :
  ∃ new,
    diff_links (urls (list_to_set [A; B])) (urls (list_to_set links_BC.*1))
      = Ok (PStr <$> new) ∧
    C ∈ new ∧
    main env_read_only st_AB =
      (Raise OSError,
       {| file := file st_AB;
          trace := trace st_AB ++
            [EvLog INFO "Neue Produkte: %d";
             EvMail mail_subject (mail_body (PStr <$> new));
             EvLog INFO "E-Mail versendet an %s"] |}).
Proof.
  apply (main_mail_before_save env_read_only st_AB page_BC links_BC
           (list_to_set [A; B]) C).
  - reflexivity.
  - reflexivity.
  - by apply load_state_file_of.
  - apply (non_empty_inhabited_L A), elem_of_list_to_set. by left.
  - right. by left.
  - rewrite elem_of_list_to_set, !elem_of_cons, elem_of_nil.
    intros [Hc|[Hc|[]]]; apply String.eqb_eq in Hc; discriminate Hc.
  - exact mail_configured_env_ok.
  - reflexivity.
  - reflexivity.
Defined.

Lemma main_rerun_quiet_witness :
  let st' := (main env_ok st_fresh).2 in
  (main env_ok st').1 = Ok 0%Z ∧
  file (main env_ok st').2 = file st' ∧
  ∃ evs, trace (main env_ok st').2 = trace st' ++ evs ∧
         Forall (λ ev, ∃ lvl msg, ev = EvLog lvl msg) evs.
Proof.
  apply (main_rerun_quiet env_ok env_ok st_fresh page_BC links_BC 0%Z
           page_BC links_BC).
  - reflexivity.
  - reflexivity.
  - discriminate.
  - by rewrite run_first.
  - reflexivity.
  - reflexivity.
  - done.
Defined.


Lemma accept_substring_accepted_witness :
  matches_accept_pattern "/x-BOOSTER-display-1" = true ∧
  (has_reject_marker "/x-BOOSTER-display-1" = false →
   looks_like_product "/x-BOOSTER-display-1" = true).
Proof.
  apply (accept_substring_accepted "/x-BOOSTER-display-1"). reflexivity.
Defined.

End RunsMore.

(** ** The steady-state run with new URLs *)

Section SteadyState.
Context {pkgs : Packages} (env : environment).

(** Distinct strings are distinct elements. *)
Lemma PStr_inj : Inj (=) (=) PStr.
Proof. by intros ?? [=]. Qed.

(** A set that holds a string and an element that is not a string does
    not sort. *)
Lemma sorted_mixed (S : gset atom) u a :
  PStr u ∈ S → a ∈ S → ¬ is_url a → sorted S = Raise TypeError.
Proof.
  intros Hu Ha Hna. unfold sorted, sorted_list.
  apply elem_of_elements in Hu, Ha.
  destruct (mapM as_str (elements S)) as [ss|] eqn:Hs.
  { apply mapM_as_str in Hs. rewrite Hs in Ha.
    apply list_elem_of_fmap in Ha as (s & -> & _). destruct Hna. by eexists. }
  destruct (mapM as_int (elements S)) as [zs|] eqn:Hz.
  { apply mapM_as_int in Hz. rewrite Hz in Hu.
    by apply list_elem_of_fmap in Hu as (z & [=] & _). }
  destruct (elements S) as [|x [|y l]]; [done| |done].
  apply list_elem_of_singleton in Hu, Ha. subst.
  destruct Hna. by eexists.
Qed.

(** C1, as the code has it.  In a steady-state run, whatever the stored
    set, the new URLs are exactly the extracted URLs that are not stored,
    as one ascending list.  When there are some, the orchestrator first
    notifies with this list (the mail names each new URL on a line of its
    own) and then saves the stored elements together with the new URLs.
    When every stored element is a string, as in every state file the
    monitor writes, the run is the notification followed by the write of
    the document [{"saved_at": now, "product_urls": saved}], where [saved]
    is the ascending list of the stored and the new URLs (not of the
    extracted set); when the write succeeds the run ends with code 0, the
    file holds this document and reads back as that union.  When a stored
    element is not a string, the sort in [save_state] raises [TypeError]
    after the notification and nothing is saved. *)
Theorem main_steady_state st resp_text links (prev : gset atom) :
  http_get env (CATEGORY_URL env) = Ok resp_text →
  extract_product_links resp_text (CATEGORY_URL env) = Ok links →
  (load_state st).1 = Ok prev → prev ≠ ∅ →
  let current : gset string := list_to_set links.*1 in
  ∃ new,
    diff_links prev (urls current) = Ok (PStr <$> new) ∧
    (∀ u, u ∈ new ↔ u ∈ current ∧ PStr u ∉ prev) ∧
    NoDup new ∧ StronglySorted String.le new ∧
    (new ≠ [] →
     let body :=
       String.concat (String "010" "")
         (["Neue Produkte bei Games Island entdeckt:"; ""]
          ++ ((λ u, "• " +:+ u) <$> new)) in
     let st_n :=
       (notify_new_items env (PStr <$> new)
          (add_event (EvLog INFO "Neue Produkte: %d") st)).2 in
     file st_n = file st ∧
     (mail_configured env → smtp_session env = Ok () →
      trace st_n = trace st ++
        [EvLog INFO "Neue Produkte: %d";
         EvMail "Games Island – Neue Einträge" body;
         EvLog INFO "E-Mail versendet an %s"]) ∧
     (set_Forall is_url prev →
      ∃ saved,
        (∀ u, u ∈ saved ↔ PStr u ∈ prev ∨ u ∈ new) ∧
        NoDup saved ∧ StronglySorted String.le saved ∧
        let payload :=
          JObj [("saved_at", JStr (utcnow env));
                ("product_urls", JArr (JStr <$> saved))] in
        main env st = (write_json env payload ;; ret 0%Z)%M st_n ∧
        (fs_write env = Written →
         main env st =
           (Ok 0%Z, {| file := Present (Ok payload);
                       trace := trace st_n ++ [EvWrite payload] |}) ∧
         (load_state (main env st).2).1
           = Ok (prev ∪ urls (list_to_set new)))) ∧
     (∀ a, a ∈ prev → ¬ is_url a →
      main env st = (Raise TypeError, st_n))).
Proof.
  intros Hf He Hl Hne current. pose proof PStr_inj as Hinj.
  destruct (main_extracted env st resp_text links Hf He)
    as (st1 & prev' & new & _ & _ & Hst1 & Hl' & Hd & Hnew & Hmain).
  assert (prev' = prev) as -> by congruence.
  destruct (diff_links_urls prev current) as (new' & Hd' & _ & Hnd & Hsorted).
  assert (new' = new) as ->.
  { fold current in Hd. rewrite Hd in Hd'. injection Hd' as Hd'.
    by apply (inj (fmap PStr)) in Hd'. }
  rewrite bool_decide_eq_false_2 in Hmain by done.
  exists new. split_and!; [done..|].
  intros Hnn body st_n.
  assert (st1 = st) as ->.
  { apply Hst1; [|done]. destruct new as [|u new]; [done|].
    intros Hc. assert (u ∈ current) as Hu by (apply (Hnew u); by left).
    rewrite <- elem_of_urls in Hu. fold current in Hc.
    rewrite Hc in Hu. by apply elem_of_empty in Hu. }
  destruct (notify_new_items_returns env (PStr <$> new)
              (add_event (EvLog INFO "Neue Produkte: %d") st))
    as (evs & Hn & _).
  assert (notify_new_items env (PStr <$> new)
            (add_event (EvLog INFO "Neue Produkte: %d") st) = (Ok (), st_n))
    as Hn2 by (unfold st_n; by rewrite Hn).
  assert (main env st =
          (save_state env (prev ∪ list_to_set (PStr <$> new)) ;; ret 0%Z)%M
            st_n) as Hrun.
  { rewrite Hmain. destruct new as [|u new]; [done|].
    by rewrite log_bind, (bind_ok _ _ _ _ _ Hn2). }
  split_and!.
  - unfold st_n. by rewrite Hn.
  - intros Hc Hs. unfold st_n.
    rewrite (notify_new_items_sent env); [|by destruct new|done..].
    simpl. rewrite <- app_assoc. unfold mail_body, body.
    by rewrite <- list_fmap_compose.
  - intros Hp.
    destruct (sorted_urls (prev ∪ list_to_set (PStr <$> new)))
      as (saved & Hs & Hin & Hnd' & Hst').
    { intros x [Hx|Hx]%elem_of_union; [by apply Hp|].
      apply elem_of_list_to_set, list_elem_of_fmap in Hx as (? & -> & _).
      by eexists. }
    exists saved. split_and!; [|done..|].
    { intros u. rewrite Hin, elem_of_union, elem_of_list_to_set.
      by rewrite (list_elem_of_fmap_inj PStr). }
    intros payload.
    assert (payload = snapshot (utcnow env) (PStr <$> saved)) as Hpay.
    { unfold payload, snapshot. by rewrite <- list_fmap_compose. }
    assert (save_state env (prev ∪ list_to_set (PStr <$> new)) st_n
            = write_json env payload st_n) as Hsave.
    { unfold save_state, bind, lift. by rewrite Hs, Hpay. }
    assert (main env st = (write_json env payload ;; ret 0%Z)%M st_n) as Hrun2.
    { rewrite Hrun. unfold bind. by rewrite Hsave. }
    split; [done|]. intros Hw. rewrite Hrun2. unfold bind, ret.
    rewrite write_json_written by done. split; [done|].
    rewrite load_state_stored. cbn [snd file]. rewrite Hpay.
    rewrite stored_urls_snapshot, (sorted_list_to_set _ _ Hs).
    by rewrite list_to_set_urls.
  - intros a Ha Hna. rewrite Hrun.
    destruct new as [|u new]; [done|].
    apply bind_raise. unfold save_state, bind, lift.
    rewrite (sorted_mixed _ u a); [done| |by apply elem_of_union_l|done].
    apply elem_of_union_r, elem_of_list_to_set. by left.
Qed.

End SteadyState.

Section SteadyStateRuns.
Import Example ExampleMore.

Lemma main_steady_state_witness :
  let current : gset string := list_to_set links_BC.*1 in
  let prev : gset atom := urls (list_to_set [A; B]) in
  ∃ new,
    diff_links prev (urls current) = Ok (PStr <$> new) ∧
    (∀ u, u ∈ new ↔ u ∈ current ∧ PStr u ∉ prev) ∧
    NoDup new ∧ StronglySorted String.le new ∧
    (new ≠ [] →
     let body :=
       String.concat (String "010" "")
         (["Neue Produkte bei Games Island entdeckt:"; ""]
          ++ ((λ u, "• " +:+ u) <$> new)) in
     let st_n :=
       (notify_new_items env_ok (PStr <$> new)
          (add_event (EvLog INFO "Neue Produkte: %d") st_AB)).2 in
     file st_n = file st_AB ∧
     (mail_configured env_ok → smtp_session env_ok = Ok () →
      trace st_n = trace st_AB ++
        [EvLog INFO "Neue Produkte: %d";
         EvMail "Games Island – Neue Einträge" body;
         EvLog INFO "E-Mail versendet an %s"]) ∧
     (set_Forall is_url prev →
      ∃ saved,
        (∀ u, u ∈ saved ↔ PStr u ∈ prev ∨ u ∈ new) ∧
        NoDup saved ∧ StronglySorted String.le saved ∧
        let payload :=
          JObj [("saved_at", JStr (utcnow env_ok));
                ("product_urls", JArr (JStr <$> saved))] in
        main env_ok st_AB = (write_json env_ok payload ;; ret 0%Z)%M st_n ∧
        (fs_write env_ok = Written →
         main env_ok st_AB =
           (Ok 0%Z, {| file := Present (Ok payload);
                       trace := trace st_n ++ [EvWrite payload] |}) ∧
         (load_state (main env_ok st_AB).2).1
           = Ok (prev ∪ urls (list_to_set new)))) ∧
     (∀ a, a ∈ prev → ¬ is_url a →
      main env_ok st_AB = (Raise TypeError, st_n))).
Proof.
  intros current prev.
  apply (main_steady_state env_ok st_AB page_BC links_BC prev).
  - reflexivity.
  - reflexivity.
  - by apply load_state_file_of.
  - apply (non_empty_inhabited_L (PStr A)), elem_of_urls, elem_of_list_to_set.
    by left.
Defined.

(** C1 as stated fails on a stored set that holds an element which is not
    a string.  With a state file whose [product_urls] is [[1]] and a page
    that lists B and C, the run is a steady-state run with the new URLs B
    and C: the mail goes out, then [save_state] raises [TypeError] on
    sorting 1 with the URLs.  The union is not saved: the state file is as
    it was, and the process ends with status 1. *)
Lemma main_steady_state_number_stored :
  (load_state st_number).1 = Ok {[PInt 1]} ∧
  diff_links {[PInt 1]} (urls (list_to_set links_BC.*1))
    = Ok [PStr B; PStr C] ∧
  main env_ok st_number =
    (Raise TypeError,
     {| file := file st_number;
        trace := [EvLog INFO "Neue Produkte: %d";
                  EvMail mail_subject (mail_body [PStr B; PStr C]);
                  EvLog INFO "E-Mail versendet an %s"] |}) ∧
  exit_code env_ok st_number = 1%Z.
Proof. by vm_compute. Qed.

End SteadyStateRuns.
